(** * Keystache: the authorization request broker (tauriCommands) and the
      nsec check of the login page.

    Shallow embedding of
      - [src/unnamed/part_000]       (the module LoginPage imports as
                                      [~/tauriCommands]): the two handler
        registries, [handleSignEventRequests], [handlePayInvoiceRequests]
        and the two [listen] callbacks;
      - [src/src/pages/LoginPage.tsx]: [isValidNsec], [formSchema],
        [onSubmit].

    Conventions.
      - A JS object used as a number-keyed map is a [gmap Z _].
      - [Math.random] is the sequence of values the engine hands out, one
        per call; the store counts the calls made so far.  A number is a
        rational, and an arithmetic operation rounds its exact result to
        the nearest double (binary64, ties to even).
      - A [while] loop runs on fuel; [None] means the loop is still
        running when the fuel is spent.
      - A handler is a function of its arguments and of the state of the
        world outside the broker (a dialog, a wallet, ...), and either
        fulfils with a boolean, rejects (a throw or a rejected promise), or
        never settles.
      - What a callback does to the outside is recorded as a list of
        effects, oldest first. *)

From Stdlib Require Import ZArith QArith Qround Qcanon Lqa List Lia.
From stdpp Require Import gmap strings list fin_maps sorting.

Local Open Scope Z_scope.

(* ===================================================================== *)
(** * Data *)
(* ===================================================================== *)

Module Types.

(** Modelled from the spec: the declaration of [UnsignedNostrEvent] in
    [./types], which is not among the sources.  The broker reads [id] only. *)
Record UnsignedNostrEvent := {
  id : string;
  pubkey : string;
  kind : Z;
  content : string;
  tags : list (list string)
}.

End Types.

Abbreviation UnsignedNostrEvent := Types.UnsignedNostrEvent.

(** What [await handler(...)] observes. *)
Inductive Settlement :=
| Fulfilled (value : bool)
| Rejected
| Pending.

(** What the broker does to its surroundings. *)
Inductive Effect :=
| Called (handlerId : Z)
| respond_to_sign_event_request (eventId : string) (approved : bool)
| respond_to_pay_invoice_request (invoice : string) (approved : bool).

(** How the promise of an [async] callback ends. *)
Inductive Completion :=
| Resolved
| RejectedPromise
| NeverSettles.

(** How the [for ... of] loop of a listener is left. *)
Inductive LoopExit :=
| Finished (isApproved : bool)
| Thrown
| Awaiting.

(** The outcomes the doc comment of [handlePayInvoiceRequests] speaks of. *)
Inductive PayOutcome := paid | failed | denied.

Definition isResponse (e : Effect) : bool :=
  match e with
  | Called _ => false
  | respond_to_sign_event_request _ _ => true
  | respond_to_pay_invoice_request _ _ => true
  end.

Definition responses (es : list Effect) : list Effect :=
  List.filter isResponse es.

(** The identities of the handlers called, in the order of the calls. *)
Definition calledIds (es : list Effect) : list Z :=
  omap (fun e => match e with Called k => Some k | _ => None end) es.

Definition timesCalled (handlerId : Z) (es : list Effect) : nat :=
  count_occ Z.eq_dec (calledIds es) handlerId.

(** ** Numbers *)

(** 2^k, for any integer k. *)
Definition pow2 (k : Z) : Q :=
  if 0 <=? k then inject_Z (2 ^ k) else / inject_Z (2 ^ (- k)).

(** The nearest integer, the even one of two that are equally near. *)
Definition roundHalfEven (q : Q) : Z :=
  let f := Qfloor q in
  match (q - inject_Z f ?= 1 # 2)%Q with
  | Lt => f
  | Gt => f + 1
  | Eq => if Z.even f then f else f + 1
  end.

(** The exponent e with 2^e <= x < 2^(e+1), for x > 0. *)
Definition binade (x : Q) : Z :=
  let e0 := Z.log2 (Qnum x) - Z.log2 (Z.pos (Qden x)) in
  if Qle_bool (pow2 e0) x then e0 else e0 - 1.

(** The double nearest to x > 0: 53 significant bits in the binade of x,
    and multiples of 2^-1074 below 2^-1022. *)
Definition nearestDouble (x : Q) : Q :=
  let e := Z.max (binade x) (-1022) in
  (inject_Z (roundHalfEven (x * pow2 (52 - e))) * pow2 (e - 52))%Q.

(** The rounding of an exact result to a double: round to nearest, ties to
    even.  Results of 2^1024 and more, which a double gives as Infinity, do
    not arise here and are not modelled. *)
Definition toDouble (x : Q) : Q :=
  let y := Qred x in
  match (y ?= 0)%Q with
  | Eq => 0%Q
  | Gt => nearestDouble y
  | Lt => (- nearestDouble (- y))%Q
  end.

(** [Object.values] and [Object.keys] of an object whose keys are
    non-negative integers below 2^32 - 1 enumerate in ascending key order. *)
Definition keyLe {A} (x y : Z * A) : Prop := x.1 <= y.1.

#[export] Instance keyLe_dec {A} : RelDecision (@keyLe A).
Proof. intros x y. unfold keyLe. apply _. Defined.

Definition Object_entries {A} (o : gmap Z A) : list (Z * A) :=
  merge_sort keyLe (map_to_list o).

Definition Object_keys {A} (o : gmap Z A) : list Z := (Object_entries o).*1.

Definition Object_values {A} (o : gmap Z A) : list A := (Object_entries o).*2.

(* ===================================================================== *)
(** * The broker *)
(* ===================================================================== *)

Section Broker.

(** The world the handlers live in. *)
Context {Env : Type}.

(** The values [Math.random()] returns, call after call. *)
Variable Math_random : nat -> Q.

Definition SignEventRequestHandler : Type :=
  UnsignedNostrEvent -> string -> Env -> Settlement * Env.

Definition PayInvoiceRequestHandler : Type :=
  string -> Env -> Settlement * Env.

(** The module-level state: the two registries, and how often
    [Math.random] has been called. *)
Record Store := {
  signEventRequestHandlers : gmap Z SignEventRequestHandler;
  payInvoiceRequestHandlers : gmap Z PayInvoiceRequestHandler;
  randomCalls : nat
}.

(** [Math.floor(Math.random() * max)], at the [n]-th call of [Math.random]:
    the product of the two doubles is rounded to a double, of which the
    floor is taken. *)
Definition getRandomInt (max : Z) (n : nat) : Z :=
  Qfloor (toDouble (Math_random n * inject_Z max)).

(** [while (registry[handlerId]) { handlerId = getRandomInt(1000000); }]
    A stored handler is a function, hence truthy: the test is presence. *)
Fixpoint whileInUse {A} (fuel : nat) (registry : gmap Z A)
    (calls : nat) (handlerId : Z) : option (Z * nat) :=
  match registry !! handlerId with
  | None => Some (handlerId, calls)
  | Some _ =>
      match fuel with
      | O => None
      | S fuel' =>
          whileInUse fuel' registry (S calls) (getRandomInt 1000000 calls)
      end
  end.

(** [let handlerId = getRandomInt(1000000); while ...] *)
Definition freshHandlerId {A} (fuel : nat) (registry : gmap Z A)
    (calls : nat) : option (Z * nat) :=
  whileInUse fuel registry (S calls) (getRandomInt 1000000 calls).

(** [handleSignEventRequests] up to its [return]: the identity chosen and
    the store with the handler in place. *)
Definition handleSignEventRequests_body (fuel : nat)
    (handler : SignEventRequestHandler) (st : Store) : option (Z * Store) :=
  match freshHandlerId fuel (signEventRequestHandlers st) (randomCalls st) with
  | None => None
  | Some (handlerId, calls) =>
      Some (handlerId,
            {| signEventRequestHandlers :=
                 <[handlerId := handler]> (signEventRequestHandlers st);
               payInvoiceRequestHandlers := payInvoiceRequestHandlers st;
               randomCalls := calls |})
  end.

(** [() => { delete signEventRequestHandlers[handlerId]; }] *)
Definition unregisterSignEvent (handlerId : Z) (st : Store) : Store :=
  {| signEventRequestHandlers := delete handlerId (signEventRequestHandlers st);
     payInvoiceRequestHandlers := payInvoiceRequestHandlers st;
     randomCalls := randomCalls st |}.

Definition handleSignEventRequests (fuel : nat)
    (handler : SignEventRequestHandler) (st : Store)
  : option ((Store -> Store) * Store) :=
  match handleSignEventRequests_body fuel handler st with
  | None => None
  | Some (handlerId, st') => Some (unregisterSignEvent handlerId, st')
  end.

Definition handlePayInvoiceRequests_body (fuel : nat)
    (handler : PayInvoiceRequestHandler) (st : Store) : option (Z * Store) :=
  match freshHandlerId fuel (payInvoiceRequestHandlers st) (randomCalls st) with
  | None => None
  | Some (handlerId, calls) =>
      Some (handlerId,
            {| signEventRequestHandlers := signEventRequestHandlers st;
               payInvoiceRequestHandlers :=
                 <[handlerId := handler]> (payInvoiceRequestHandlers st);
               randomCalls := calls |})
  end.

(** [() => { delete payInvoiceRequestHandlers[handlerId]; }] *)
Definition unregisterPayInvoice (handlerId : Z) (st : Store) : Store :=
  {| signEventRequestHandlers := signEventRequestHandlers st;
     payInvoiceRequestHandlers := delete handlerId (payInvoiceRequestHandlers st);
     randomCalls := randomCalls st |}.

Definition handlePayInvoiceRequests (fuel : nat)
    (handler : PayInvoiceRequestHandler) (st : Store)
  : option ((Store -> Store) * Store) :=
  match handlePayInvoiceRequests_body fuel handler st with
  | None => None
  | Some (handlerId, st') => Some (unregisterPayInvoice handlerId, st')
  end.

(** A run of registrations, into either registry, in the order given. *)
Inductive Registration :=
| IntoSignEvent (handler : SignEventRequestHandler)
| IntoPayInvoice (handler : PayInvoiceRequestHandler).

Fixpoint registerEach (fuel : nat) (rs : list Registration) (st : Store)
  : option (list Z * list Z * Store) :=
  match rs with
  | [] => Some ([], [], st)
  | IntoSignEvent h :: rs' =>
      match handleSignEventRequests_body fuel h st with
      | None => None
      | Some (k, st') =>
          match registerEach fuel rs' st' with
          | None => None
          | Some (ss, ps, st'') => Some (k :: ss, ps, st'')
          end
      end
  | IntoPayInvoice h :: rs' =>
      match handlePayInvoiceRequests_body fuel h st with
      | None => None
      | Some (k, st') =>
          match registerEach fuel rs' st' with
          | None => None
          | Some (ss, ps, st'') => Some (ss, k :: ps, st'')
          end
      end
  end.

(** ** Dispatch *)

(** A handler with its arguments supplied, waiting to be called. *)
Definition Poll : Type := Env -> Settlement * Env.

(** [for (const handler of snapshot) { isApproved = await handler(...);
       if (isApproved) { break; } }]
    Returns the identities of the handlers called, in order, how the loop
    was left, and the world afterwards. *)
Fixpoint pollHandlers (snapshot : list (Z * Poll)) (isApproved : bool)
    (env : Env) : list Z * LoopExit * Env :=
  match snapshot with
  | [] => ([], Finished isApproved, env)
  | (handlerId, handler) :: rest =>
      match handler env with
      | (Fulfilled value, env') =>
          if value then ([handlerId], Finished value, env')
          else
            let '(called, exit, env'') := pollHandlers rest value env' in
            (handlerId :: called, exit, env'')
      | (Rejected, env') => ([handlerId], Thrown, env')
      | (Pending, env') => ([handlerId], Awaiting, env')
      end
  end.

Record Run := {
  effects : list Effect;
  completion : Completion;
  world : Env
}.

(** What follows the loop: the one call of [respondTo...], or nothing when
    the [await] threw or never came back. *)
Definition afterLoop (respond : bool -> Effect)
    (r : list Z * LoopExit * Env) : Run :=
  let '(called, exit, env') := r in
  match exit with
  | Finished isApproved =>
      {| effects := (Called <$> called) ++ [respond isApproved];
         completion := Resolved;
         world := env' |}
  | Thrown =>
      {| effects := Called <$> called;
         completion := RejectedPromise;
         world := env' |}
  | Awaiting =>
      {| effects := Called <$> called;
         completion := NeverSettles;
         world := env' |}
  end.

Definition signPolls (st : Store) (event : UnsignedNostrEvent * string)
  : list (Z * Poll) :=
  prod_map (fun k : Z => k)
           (fun handler : SignEventRequestHandler => handler event.1 event.2)
    <$> Object_entries (signEventRequestHandlers st).

Definition payPolls (st : Store) (invoice : string) : list (Z * Poll) :=
  prod_map (fun k : Z => k)
           (fun handler : PayInvoiceRequestHandler => handler invoice)
    <$> Object_entries (payInvoiceRequestHandlers st).

(** The callback of [listen("sign_event_request", ...)]; [event] is
    [event.payload]. *)
Definition sign_event_request_listener (st : Store)
    (event : UnsignedNostrEvent * string) (env : Env) : Run :=
  afterLoop (respond_to_sign_event_request (Types.id event.1))
            (pollHandlers (signPolls st event) false env).

(** The callback of [listen("pay_invoice_request", ...)]. *)
Definition pay_invoice_request_listener (st : Store)
    (invoice : string) (env : Env) : Run :=
  afterLoop (respond_to_pay_invoice_request invoice)
            (pollHandlers (payPolls st invoice) false env).

(** ** Vocabulary of the statements *)

(** The handlers of [snapshot], called one after the other from [env],
    each fulfil with [false]; the world is then [env']. *)
Inductive AllDecline : list (Z * Poll) -> Env -> Env -> Prop :=
| AllDecline_nil env : AllDecline [] env env
| AllDecline_cons k p rest env env1 env' :
    p env = (Fulfilled false, env1) ->
    AllDecline rest env1 env' ->
    AllDecline ((k, p) :: rest) env env'.

(** A handler that, whenever it is called, comes back with a boolean. *)
Definition Answers (p : Poll) : Prop :=
  forall env, exists value env', p env = (Fulfilled value, env').

(** Every value of the identity space keeps being drawn. *)
Definition FairDraws : Prop :=
  forall (start : nat) (k : Z), 0 <= k < 1000000 ->
    exists n, (start <= n)%nat /\ getRandomInt 1000000 n = k.

(** A pay-invoice handler that reports [o] through its declared return
    type, under the encoding [enc] of outcomes as booleans. *)
Definition reporting (enc : PayOutcome -> bool) (o : PayOutcome)
  : PayInvoiceRequestHandler :=
  fun _ env => (Fulfilled (enc o), env).

Definition onlyPayHandler (h : PayInvoiceRequestHandler) : Store :=
  {| signEventRequestHandlers := ∅;
     payInvoiceRequestHandlers := {[ 0 := h ]};
     randomCalls := O |}.

End Broker.

Arguments Store : clear implicits.
Arguments Run : clear implicits.
Arguments SignEventRequestHandler : clear implicits.
Arguments PayInvoiceRequestHandler : clear implicits.
Arguments Registration : clear implicits.
Arguments Poll : clear implicits.

(** The outcome the doc comment of [handlePayInvoiceRequests] promises for
    the outcomes [rs] of the handlers polled: "paid" as soon as one handler
    says so, else "failed" if any handler said "failed", else "denied". *)
Fixpoint documented_pay_outcome (rs : list PayOutcome) : PayOutcome :=
  match rs with
  | [] => denied
  | paid :: _ => paid
  | failed :: rest =>
      match documented_pay_outcome rest with
      | paid => paid
      | _ => failed
      end
  | denied :: rest => documented_pay_outcome rest
  end.

(** The boolean a pay-invoice outcome is sent as, following section 3 of the
    specification: paid is approved, failed and denied are not. *)
Definition spec_approved_projection (o : PayOutcome) : bool :=
  match o with
  | paid => true
  | failed => false
  | denied => false
  end.

(* ===================================================================== *)
(** * The login page *)
(* ===================================================================== *)

Module LoginPage.

(** A call that returns or throws. *)
Inductive Try (A : Type) :=
| Returned (a : A)
| Threw.

Arguments Returned {A} a.
Arguments Threw {A}.

(** [try { body } catch (e) { handler }] *)
Definition tryCatch {A} (body : Try A) (handler : Try A) : Try A :=
  match body with
  | Returned a => Returned a
  | Threw => handler
  end.

(** What [nip19.decode] of nostr-tools returns: the kind of entity read from
    the bech32 prefix, and its payload. *)
Record DecodeResult := {
  type : string;
  data : string
}.

Record FormValues := { nsec : string }.

Inductive PageEffect :=
| setIsLoading (isLoading : bool)
| setNsec (nsec : string)
| navigate (to : string)
| FormMessage (message : string).

Section Page.

(** [nip19.decode] of nostr-tools. *)
Variable nip19_decode : string -> Try DecodeResult.

(** Whether the backend command [set_nsec] succeeds on a string. *)
Variable set_nsec_resolves : string -> bool.

Definition isValidNsec (nsec : string) : Try bool :=
  tryCatch
    match nip19_decode nsec with
    | Returned r => Returned (bool_decide (type r = "nsec"))
    | Threw => Threw
    end
    (Returned false).

(** [formSchema.safeParse]: zod's [z.object({ nsec: z.string().refine(
    isValidNsec, { message: "Invalid nsec." }) })] on the values of the
    form; a refinement that throws makes the parse throw. *)
Definition formSchema (values : FormValues) : Try (string + FormValues) :=
  match isValidNsec (nsec values) with
  | Returned true => Returned (inr values)
  | Returned false => Returned (inl "Invalid nsec.")
  | Threw => Threw
  end.

Definition onSubmit (values : FormValues) : list PageEffect * Completion :=
  if set_nsec_resolves (nsec values)
  then ([setIsLoading true; setNsec (nsec values); navigate "/";
         setIsLoading false], Resolved)
  else ([setIsLoading true; setNsec (nsec values); setIsLoading false],
        RejectedPromise).

(** [form.handleSubmit(onSubmit)] of react-hook-form with the zod resolver:
    [onSubmit] runs on the parsed values, and only when the parse succeeds;
    otherwise the message is shown. *)
Definition handleSubmit (values : FormValues) : list PageEffect * Completion :=
  match formSchema values with
  | Returned (inr parsed) => onSubmit parsed
  | Returned (inl message) => ([FormMessage message], Resolved)
  | Threw => ([], RejectedPromise)
  end.

End Page.

End LoginPage.

(* ===================================================================== *)
(** * Concrete handlers, stores and random sources *)
(* ===================================================================== *)

Module Sample.

Definition approves : SignEventRequestHandler unit :=
  fun _ _ env => (Fulfilled true, env).
Definition declines : SignEventRequestHandler unit :=
  fun _ _ env => (Fulfilled false, env).
Definition throws : SignEventRequestHandler unit :=
  fun _ _ env => (Rejected, env).

Definition pays : PayInvoiceRequestHandler unit :=
  fun _ env => (Fulfilled true, env).
Definition refuses : PayInvoiceRequestHandler unit :=
  fun _ env => (Fulfilled false, env).
Definition crashes : PayInvoiceRequestHandler unit :=
  fun _ env => (Rejected, env).

(** A handler that declines the first time it is asked and approves from
    then on; its world counts the calls. *)
Definition secondThoughts : SignEventRequestHandler nat :=
  fun _ _ n => (Fulfilled (negb (Nat.eqb n 0)), S n).

Definition event : UnsignedNostrEvent :=
  {| Types.id := "e1"; Types.pubkey := "pk"; Types.kind := 1;
     Types.content := "hello"; Types.tags := [] |}.

Definition mkStore {Env} (s : gmap Z (SignEventRequestHandler Env))
    (p : gmap Z (PayInvoiceRequestHandler Env)) : Store Env :=
  {| signEventRequestHandlers := s;
     payInvoiceRequestHandlers := p;
     randomCalls := O |}.

(** [Math.random] running through the identity space and round again: at
    its n-th call the least double m / 2^53 that is at least
    (k + 1/2) / 1000000, where k = n mod 1000000. *)
Definition cycling (n : nat) : Q :=
  Qmake (((2 * (Z.of_nat n mod 1000000) + 1) * 4503599627370496 + 999999)
           / 1000000)
        9007199254740992.

(** [Math.random] stuck at 0. *)
Definition stuck (n : nat) : Q := 0 # 1.

Definition throwsThenApproves : Store unit :=
  mkStore (<[1 := throws]> (<[2 := approves]> ∅))
          (<[1 := crashes]> (<[2 := pays]> ∅)).

Definition declinesThenApproves : Store unit :=
  mkStore (<[5 := declines]> (<[9 := approves]> (<[12 := declines]> ∅)))
          (<[5 := refuses]> (<[9 := pays]> (<[12 := refuses]> ∅))).

Definition allDecline : Store unit :=
  mkStore (<[3 := declines]> (<[4 := declines]> ∅))
          (<[3 := refuses]> (<[4 := refuses]> ∅)).

(** The same hesitant handler registered three times. *)
Definition hesitant : Store nat :=
  mkStore (<[3 := secondThoughts]>
             (<[8 := secondThoughts]> (<[11 := secondThoughts]> ∅))) ∅.

Definition nobody : Store unit := mkStore ∅ ∅.

Definition oneTaken : Store unit := mkStore (<[0 := declines]> ∅) ∅.

Definition validOnly (s : string) : LoginPage.Try LoginPage.DecodeResult :=
  if bool_decide (s = "nsec1ok")
  then LoginPage.Returned {| LoginPage.type := "nsec"; LoginPage.data := "00" |}
  else if bool_decide (s = "npub1ok")
  then LoginPage.Returned {| LoginPage.type := "npub"; LoginPage.data := "11" |}
  else LoginPage.Threw.

End Sample.

(* ===================================================================== *)
(** * The life of the module *)
(* ===================================================================== *)

(** Entries in the order of their keys, no key twice. *)
Definition keyLt {A} (x y : Z * A) : Prop := x.1 < y.1.

(** How the loop is left at a handler that does not decline. *)
Definition leaves (s : Settlement) : LoopExit :=
  match s with
  | Fulfilled value => Finished value
  | Rejected => Thrown
  | Pending => Awaiting
  end.

(** The keys of a registry lie in the identity space. *)
Definition KeysInRange {A} (registry : gmap Z A) : Prop :=
  forall k, is_Some (registry !! k) -> 0 <= k < 1000000.

(** [Math.random] returns doubles of [0, 1); the largest of them is
    1 - 2^-53. *)
Definition InUnitInterval (Math_random : nat -> Q) : Prop :=
  forall n, (0 <= Math_random n)%Q
            /\ (Math_random n <= 1 - (1 # 9007199254740992))%Q.

Section Lifecycle.

Context {Env : Type}.
Variable Math_random : nat -> Q.

(** The store when the module has just been loaded:
    [const signEventRequestHandlers = {}],
    [const payInvoiceRequestHandlers = {}]. *)
Definition moduleLoaded : Store Env :=
  {| signEventRequestHandlers := ∅;
     payInvoiceRequestHandlers := ∅;
     randomCalls := O |}.

(** What the exported functions and the capabilities they return can do to
    the store.  A capability is a delete on some identity. *)
Inductive Step : Store Env -> Store Env -> Prop :=
| Step_handleSignEventRequests fuel handler st k st' :
    handleSignEventRequests_body Math_random fuel handler st = Some (k, st') ->
    Step st st'
| Step_handlePayInvoiceRequests fuel handler st k st' :
    handlePayInvoiceRequests_body Math_random fuel handler st = Some (k, st') ->
    Step st st'
| Step_unregisterSignEvent k st :
    Step st (unregisterSignEvent k st)
| Step_unregisterPayInvoice k st :
    Step st (unregisterPayInvoice k st).

Definition Reachable (st : Store Env) : Prop := rtc Step moduleLoaded st.

End Lifecycle.

(** [const [isLoading, setIsLoading] = useState<boolean>(false)]: the
    value of [isLoading] once the effects have taken place. *)
Definition isLoadingAfter (isLoading : bool)
    (es : list LoginPage.PageEffect) : bool :=
  fold_left (fun b e => match e with
                        | LoginPage.setIsLoading b' => b'
                        | _ => b
                        end) es isLoading.

Section Outcomes.

Context {Env : Type}.



End Outcomes.

Module Scenario.

(** A sign-event registry in which every identity is taken. *)
Definition full : Store unit :=
  Sample.mkStore
    (gset_to_gmap Sample.declines (list_to_set (seqZ 0 1000000))) ∅.

(** [Math.random] returning the largest double below 1 first, then a
    double whose product with 1000000 rounds up to an integer, then 0. *)
Definition nearOne (n : nat) : Q :=
  match n with
  | O => 9007199254740991 # 9007199254740992
  | S O => 25247179511039 # 9007199254740992
  | _ => 0 # 1
  end.

Definition hangs : SignEventRequestHandler unit :=
  fun _ _ env => (Pending, env).
Definition stalls : PayInvoiceRequestHandler unit :=
  fun _ env => (Pending, env).




Definition hangsThenApproves : Store unit :=
  Sample.mkStore (<[1 := hangs]> (<[2 := Sample.approves]> ∅))
                 (<[1 := stalls]> (<[2 := Sample.pays]> ∅)).

End Scenario.

(* ===================================================================== *)
(** * Enumeration of a registry *)
(* ===================================================================== *)

Section Enumeration.

Context {A : Type}.
Implicit Types (o : gmap Z A) (k : Z) (a : A).

Lemma Object_entries_perm o : Object_entries o ≡ₚ map_to_list o.
Proof. apply merge_sort_Permutation. Qed.

Lemma elem_of_Object_entries o k a :
  (k, a) ∈ Object_entries o ↔ o !! k = Some a.
Proof. rewrite Object_entries_perm. apply elem_of_map_to_list. Qed.

Lemma Object_keys_NoDup o : NoDup (Object_keys o).
Proof.
  unfold Object_keys. rewrite Object_entries_perm.
  apply NoDup_fst_map_to_list.
Qed.

Lemma elem_of_Object_keys o k : k ∈ Object_keys o ↔ is_Some (o !! k).
Proof.
  unfold Object_keys. rewrite list_elem_of_fmap. split.
  - intros [[k' a] [-> Hin]]. apply elem_of_Object_entries in Hin. eauto.
  - intros [a Ha]. exists (k, a). split; [done|].
    by apply elem_of_Object_entries.
Qed.

Lemma Object_entries_empty : Object_entries (∅ : gmap Z A) = [].
Proof. unfold Object_entries. by rewrite map_to_list_empty. Qed.

Lemma Object_keys_length o : length (Object_keys o) = size o.
Proof.
  unfold Object_keys. rewrite length_fmap, Object_entries_perm.
  apply length_map_to_list.
Qed.

Lemma Object_entries_sorted o : Sorted Z.le (Object_keys o).
Proof.
  unfold Object_keys.
  assert (Hs : Sorted keyLe (Object_entries o)).
  { apply Sorted_merge_sort. intros x y. unfold keyLe. lia. }
  induction Hs as [|x l _ IH Hhd]; [constructor|].
  simpl. constructor; [exact IH|].
  destruct Hhd; simpl; constructor. assumption.
Qed.

End Enumeration.

(* ===================================================================== *)
(** * The dispatch loop *)
(* ===================================================================== *)

Section Dispatch.

Context {Env : Type}.
Implicit Types (snapshot pre post : list (Z * Poll Env)) (env : Env).
Implicit Types (st : Store Env) (respond : bool -> Effect).

Lemma responses_Called (ks : list Z) : responses (Called <$> ks) = [].
Proof. induction ks as [|k ks IH]; [done|]. simpl. exact IH. Qed.

Lemma responses_app (es1 es2 : list Effect) :
  responses (es1 ++ es2) = responses es1 ++ responses es2.
Proof. apply List.filter_app. Qed.

Lemma responses_Called_then (ks : list Z) (e : Effect) :
  isResponse e = true -> responses ((Called <$> ks) ++ [e]) = [e].
Proof.
  intros He. rewrite responses_app, responses_Called.
  unfold responses. simpl. by rewrite He.
Qed.

Lemma calledIds_app (es1 es2 : list Effect) :
  calledIds (es1 ++ es2) = calledIds es1 ++ calledIds es2.
Proof. apply omap_app. Qed.

Lemma calledIds_Called (ks : list Z) : calledIds (Called <$> ks) = ks.
Proof.
  induction ks as [|k ks IH]; [done|].
  change (k :: calledIds (Called <$> ks) = k :: ks). by rewrite IH.
Qed.

Lemma calledIds_Called_then (ks : list Z) (e : Effect) :
  isResponse e = true -> calledIds ((Called <$> ks) ++ [e]) = ks.
Proof.
  intros He. rewrite calledIds_app, calledIds_Called.
  destruct e; simpl in *; [discriminate| |]; apply app_nil_r.
Qed.

Lemma signPolls_keys st event :
  (signPolls st event).*1 = Object_keys (signEventRequestHandlers st).
Proof.
  unfold signPolls, Object_keys. rewrite <- list_fmap_compose.
  apply list_fmap_ext. by intros _ [k h] _.
Qed.

(** The handlers polled are [Object.values] of the registry, each with the
    arguments of the request. *)
Lemma signPolls_values st event :
  (signPolls st event).*2 =
    (fun h : SignEventRequestHandler Env => h event.1 event.2)
      <$> Object_values (signEventRequestHandlers st).
Proof.
  unfold signPolls, Object_values. rewrite <- !list_fmap_compose.
  apply list_fmap_ext. by intros _ [k h] _.
Qed.

Lemma payPolls_values st invoice :
  (payPolls st invoice).*2 =
    (fun h : PayInvoiceRequestHandler Env => h invoice)
      <$> Object_values (payInvoiceRequestHandlers st).
Proof.
  unfold payPolls, Object_values. rewrite <- !list_fmap_compose.
  apply list_fmap_ext. by intros _ [k h] _.
Qed.

Lemma payPolls_keys st invoice :
  (payPolls st invoice).*1 = Object_keys (payInvoiceRequestHandlers st).
Proof.
  unfold payPolls, Object_keys. rewrite <- list_fmap_compose.
  apply list_fmap_ext. by intros _ [k h] _.
Qed.

(** Handlers that all decline are all called, and the loop ends with
    [isApproved = false]. *)
Lemma pollHandlers_AllDecline snapshot env env' :
  AllDecline snapshot env env' ->
  pollHandlers snapshot false env = (snapshot.*1, Finished false, env').
Proof.
  induction 1 as [env|k p rest env env1 env' Hp _ IH]; [done|].
  simpl. rewrite Hp. by rewrite IH.
Qed.

(** The loop runs through a declining prefix and goes on behind it. *)
Lemma pollHandlers_after_declines pre post env env1 :
  AllDecline pre env env1 ->
  pollHandlers (pre ++ post) false env =
    (let '(called, exit, env') := pollHandlers post false env1 in
     (pre.*1 ++ called, exit, env')).
Proof.
  induction 1 as [env|k p rest env env1 env' Hp _ IH]; simpl.
  - by destruct (pollHandlers post false env) as [[? ?] ?].
  - rewrite Hp, IH. by destruct (pollHandlers post false env') as [[? ?] ?].
Qed.

(** The handlers called are the first few of the snapshot, in its order. *)
Lemma pollHandlers_prefix snapshot isApproved env :
  (pollHandlers snapshot isApproved env).1.1 `prefix_of` snapshot.*1.
Proof.
  revert isApproved env.
  induction snapshot as [|[k p] rest IH]; intros isApproved env; simpl.
  - done.
  - destruct (p env) as [[[]| |] env1]; simpl;
      try (apply prefix_cons, prefix_nil).
    specialize (IH false env1).
    destruct (pollHandlers rest false env1) as [[called exit] env2].
    simpl in *. by apply prefix_cons.
Qed.

(** When every handler of the snapshot answers, the loop is left through
    its end or its [break]. *)
Lemma pollHandlers_Answers snapshot isApproved env :
  Forall (fun kp => Answers kp.2) snapshot ->
  exists called approved env',
    pollHandlers snapshot isApproved env = (called, Finished approved, env').
Proof.
  intros Hall. revert isApproved env.
  induction Hall as [|[k p] rest Hp _ IH]; intros isApproved env; simpl.
  - eauto.
  - destruct (Hp env) as (value & env1 & Heq). simpl in Heq. rewrite Heq.
    destruct value.
    + eauto.
    + destruct (IH false env1) as (called & approved & env2 & ->). eauto.
Qed.

(** The effects of a callback, read off the way its loop was left. *)
Lemma afterLoop_Finished respond called approved env :
  afterLoop respond (called, Finished approved, env) =
    {| effects := (Called <$> called) ++ [respond approved];
       completion := Resolved; world := env |}.
Proof. done. Qed.

Lemma afterLoop_calledIds respond (r : list Z * LoopExit * Env) :
  (forall b, isResponse (respond b) = true) ->
  calledIds (effects (afterLoop respond r)) = r.1.1.
Proof.
  intros Hr. destruct r as [[called exit] env]. destruct exit; simpl.
  - by apply calledIds_Called_then.
  - apply calledIds_Called.
  - apply calledIds_Called.
Qed.

(** A response is emitted exactly when the loop was left through its end
    or its [break]. *)
Lemma afterLoop_responses respond (r : list Z * LoopExit * Env) :
  (forall b, isResponse (respond b) = true) ->
  responses (effects (afterLoop respond r)) =
    match r.1.2 with
    | Finished approved => [respond approved]
    | Thrown => []
    | Awaiting => []
    end.
Proof.
  intros Hr. destruct r as [[called exit] env]. destruct exit; simpl.
  - by apply responses_Called_then.
  - apply responses_Called.
  - apply responses_Called.
Qed.

(** No handler is called twice in one dispatch. *)
Lemma timesCalled_le_1 respond snapshot env k :
  (forall b, isResponse (respond b) = true) ->
  NoDup snapshot.*1 ->
  (timesCalled k
     (effects (afterLoop respond (pollHandlers snapshot false env))) <= 1)%nat.
Proof.
  intros Hr Hnd. unfold timesCalled. rewrite afterLoop_calledIds by done.
  destruct (pollHandlers_prefix snapshot false env) as [rest Hrest].
  rewrite Hrest in Hnd. apply NoDup_app in Hnd as (Hnd & _ & _).
  apply NoDup_ListNoDup in Hnd.
  by apply (proj1 (NoDup_count_occ Z.eq_dec _)).
Qed.

End Dispatch.

(* ===================================================================== *)
(** * Verdicts *)
(* ===================================================================== *)

Section Verdicts.

Context {Env : Type}.
Implicit Types (pre post : list (Z * Poll Env)) (env : Env) (st : Store Env).

(** The handlers behind the one that ends the loop are not called. *)
Lemma later_not_called pre post (k k' : Z) (p : Poll Env) :
  NoDup (pre ++ (k, p) :: post).*1 ->
  k' ∈ post.*1 ->
  count_occ Z.eq_dec (pre.*1 ++ [k]) k' = 0%nat.
Proof.
  intros Hnd Hin. apply count_occ_not_In. intros Habs.
  rewrite fmap_app, fmap_cons in Hnd. simpl in Hnd.
  apply NoDup_app in Hnd as (_ & Hdisj & Hnd').
  apply NoDup_cons in Hnd' as (Hk & _).
  apply in_app_or in Habs as [Habs|[<-|[]]].
  - apply list_elem_of_In in Habs.
    apply (Hdisj _ Habs). by right.
  - by apply Hk.
Qed.

(** The shape of a dispatch that meets a first approving handler. *)
Lemma approval_ends_loop pre post env env1 env2 (k : Z) (p : Poll Env) :
  AllDecline pre env env1 ->
  p env1 = (Fulfilled true, env2) ->
  pollHandlers (pre ++ (k, p) :: post) false env =
    (pre.*1 ++ [k], Finished true, env2).
Proof.
  intros Hpre Hp. rewrite (pollHandlers_after_declines _ _ _ _ Hpre).
  simpl. by rewrite Hp.
Qed.

(** The shape of a dispatch that meets a handler that throws or rejects. *)
Lemma rejection_ends_loop pre post env env1 env2 (k : Z) (p : Poll Env) :
  AllDecline pre env env1 ->
  p env1 = (Rejected, env2) ->
  pollHandlers (pre ++ (k, p) :: post) false env =
    (pre.*1 ++ [k], Thrown, env2).
Proof.
  intros Hpre Hp. rewrite (pollHandlers_after_declines _ _ _ _ Hpre).
  simpl. by rewrite Hp.
Qed.

(** C4. Short circuit of the sign-event dispatch: when the k-th handler of
    the snapshot (k = length pre + 1) is the first to answer true, the
    handlers called are exactly the first k, none of the handlers k+1..N is
    called, and the one response carries approved = true. *)
Theorem sign_event_short_circuit st (event : UnsignedNostrEvent * string)
    env pre post (k : Z) (p : Poll Env) env1 env2 :
  signPolls st event = pre ++ (k, p) :: post ->
  AllDecline pre env env1 ->
  p env1 = (Fulfilled true, env2) ->
  let run := sign_event_request_listener st event env in
  effects run =
    (Called <$> (pre.*1 ++ [k])) ++
    [respond_to_sign_event_request (Types.id event.1) true]
  /\ (forall k', k' ∈ post.*1 -> timesCalled k' (effects run) = 0%nat)
  /\ responses (effects run) =
       [respond_to_sign_event_request (Types.id event.1) true].
Proof.
  intros Hsnap Hpre Hp run.
  assert (Hrun : effects run =
    (Called <$> (pre.*1 ++ [k])) ++
    [respond_to_sign_event_request (Types.id event.1) true]).
  { unfold run, sign_event_request_listener.
    by rewrite Hsnap, (approval_ends_loop _ _ _ _ _ _ _ Hpre Hp). }
  split; [exact Hrun|]. rewrite Hrun. split.
  - intros k' Hk'. unfold timesCalled.
    rewrite calledIds_Called_then by done.
    apply (later_not_called pre post k k' p); [|done].
    rewrite <- Hsnap, signPolls_keys. apply Object_keys_NoDup.
  - by apply responses_Called_then.
Qed.

(** C5. Default deny: with an empty sign-event registry the response to a
    sign-event request carries approved = false, with an empty pay-invoice
    registry the response to a pay-invoice request carries approved = false,
    and when every handler polled answers false the response, sent after
    all of them were called, carries approved = false. *)
Theorem default_deny st (event : UnsignedNostrEvent * string)
    (invoice : string) env :
  (signEventRequestHandlers st = ∅ ->
   effects (sign_event_request_listener st event env) =
     [respond_to_sign_event_request (Types.id event.1) false])
  /\
  (payInvoiceRequestHandlers st = ∅ ->
   effects (pay_invoice_request_listener st invoice env) =
     [respond_to_pay_invoice_request invoice false])
  /\
  (forall env', AllDecline (signPolls st event) env env' ->
   effects (sign_event_request_listener st event env) =
     (Called <$> Object_keys (signEventRequestHandlers st)) ++
     [respond_to_sign_event_request (Types.id event.1) false])
  /\
  (forall env', AllDecline (payPolls st invoice) env env' ->
   effects (pay_invoice_request_listener st invoice env) =
     (Called <$> Object_keys (payInvoiceRequestHandlers st)) ++
     [respond_to_pay_invoice_request invoice false]).
Proof.
  repeat split.
  - intros Hempty. unfold sign_event_request_listener, signPolls.
    by rewrite Hempty, Object_entries_empty.
  - intros Hempty. unfold pay_invoice_request_listener, payPolls.
    by rewrite Hempty, Object_entries_empty.
  - intros env' Hall. unfold sign_event_request_listener.
    rewrite (pollHandlers_AllDecline _ _ _ Hall), afterLoop_Finished.
    simpl. by rewrite signPolls_keys.
  - intros env' Hall. unfold pay_invoice_request_listener.
    rewrite (pollHandlers_AllDecline _ _ _ Hall), afterLoop_Finished.
    simpl. by rewrite payPolls_keys.
Qed.

(** C2, as the code has it. A handler that throws, or whose promise
    rejects, ends the dispatch it is polled in: the handlers before it were
    called, it was called, no handler behind it in the snapshot is called,
    no response is emitted, and the promise of the callback rejects.  This
    holds for the sign-event and for the pay-invoice callback. *)
Theorem rejection_aborts_dispatch st (event : UnsignedNostrEvent * string)
    (invoice : string) env pre post (k : Z) (p : Poll Env) env1 env2 :
  AllDecline pre env env1 ->
  p env1 = (Rejected, env2) ->
  (signPolls st event = pre ++ (k, p) :: post ->
   let run := sign_event_request_listener st event env in
   effects run = Called <$> (pre.*1 ++ [k])
   /\ responses (effects run) = []
   /\ completion run = RejectedPromise
   /\ forall k', k' ∈ post.*1 -> timesCalled k' (effects run) = 0%nat)
  /\
  (payPolls st invoice = pre ++ (k, p) :: post ->
   let run := pay_invoice_request_listener st invoice env in
   effects run = Called <$> (pre.*1 ++ [k])
   /\ responses (effects run) = []
   /\ completion run = RejectedPromise
   /\ forall k', k' ∈ post.*1 -> timesCalled k' (effects run) = 0%nat).
Proof.
  intros Hpre Hp. split; intros Hsnap run.
  - assert (Hrun : run = {| effects := Called <$> (pre.*1 ++ [k]);
                            completion := RejectedPromise; world := env2 |}).
    { unfold run, sign_event_request_listener.
      by rewrite Hsnap, (rejection_ends_loop _ _ _ _ _ _ _ Hpre Hp). }
    rewrite Hrun. simpl. repeat split.
    + apply responses_Called.
    + intros k' Hk'. unfold timesCalled. rewrite calledIds_Called.
      apply (later_not_called pre post k k' p); [|done].
      rewrite <- Hsnap, signPolls_keys. apply Object_keys_NoDup.
  - assert (Hrun : run = {| effects := Called <$> (pre.*1 ++ [k]);
                            completion := RejectedPromise; world := env2 |}).
    { unfold run, pay_invoice_request_listener.
      by rewrite Hsnap, (rejection_ends_loop _ _ _ _ _ _ _ Hpre Hp). }
    rewrite Hrun. simpl. repeat split.
    + apply responses_Called.
    + intros k' Hk'. unfold timesCalled. rewrite calledIds_Called.
      apply (later_not_called pre post k k' p); [|done].
      rewrite <- Hsnap, payPolls_keys. apply Object_keys_NoDup.
Qed.

End Verdicts.

(** What does hold of the pay-invoice loop: when the handlers send paid as
    true and the other outcomes as false, the flag the loop ends with is the
    boolean of the documented outcome. *)
Lemma pay_loop_projects_documented_outcome {Env} (invoice : string)
    (rs : list PayOutcome) (ks : list Z) (env : Env) :
  length ks = length rs ->
  (pollHandlers
     (zip ks ((fun o => reporting spec_approved_projection o invoice) <$> rs))
     false env).1.2 =
    Finished (spec_approved_projection (documented_pay_outcome rs)).
Proof.
  revert ks. induction rs as [|o rs IH]; intros [|k ks] Hlen;
    simpl in Hlen; try discriminate; [done|].
  injection Hlen as Hlen. specialize (IH ks Hlen).
  destruct o; simpl; [done| |].
  - destruct (pollHandlers _ false env) as [[called exit] env'].
    simpl in *. rewrite IH. by destruct (documented_pay_outcome rs).
  - destruct (pollHandlers _ false env) as [[called exit] env'].
    simpl in *. exact IH.
Qed.

(** C2, as stated, fails.  In a store whose first handler throws and whose
    second handler approves, a sign-event request calls the first handler
    and nothing else: the second handler is not called and no response is
    emitted; the same for a pay-invoice request. *)
Lemma throwing_handler_silences_dispatch :
  let st := Sample.throwsThenApproves in
  let run := sign_event_request_listener st (Sample.event, "pk"%string) tt in
  let payrun := pay_invoice_request_listener st "lnbc1"%string tt in
  Object_keys (signEventRequestHandlers st) = [1; 2]
  /\ signEventRequestHandlers st !! 1 = Some Sample.throws
  /\ signEventRequestHandlers st !! 2 = Some Sample.approves
  /\ Sample.throws Sample.event "pk" tt = (Rejected, tt)
  /\ Sample.approves Sample.event "pk" tt = (Fulfilled true, tt)
  /\ effects run = [Called 1]
  /\ timesCalled 2 (effects run) = 0%nat
  /\ responses (effects run) = []
  /\ Object_keys (payInvoiceRequestHandlers st) = [1; 2]
  /\ payInvoiceRequestHandlers st !! 1 = Some Sample.crashes
  /\ payInvoiceRequestHandlers st !! 2 = Some Sample.pays
  /\ effects payrun = [Called 1]
  /\ timesCalled 2 (effects payrun) = 0%nat
  /\ responses (effects payrun) = [].
Proof. vm_compute. repeat split. Qed.

Lemma sign_event_short_circuit_witness :
  let st := Sample.hesitant in
  let event := (Sample.event, "pk"%string) in
  let pre := [(3, Sample.secondThoughts Sample.event "pk")] in
  let post := [(11, Sample.secondThoughts Sample.event "pk")] in
  let run := sign_event_request_listener st event 0%nat in
  signPolls st event =
    pre ++ (8, Sample.secondThoughts Sample.event "pk") :: post
  /\ AllDecline pre 0%nat 1%nat
  /\ Sample.secondThoughts Sample.event "pk" 1%nat = (Fulfilled true, 2%nat)
  /\ effects run = [Called 3; Called 8; respond_to_sign_event_request "e1" true]
  /\ (forall k', k' ∈ post.*1 -> timesCalled k' (effects run) = 0%nat)
  /\ responses (effects run) = [respond_to_sign_event_request "e1" true].
Proof.
  intros st event pre post run.
  assert (H1 : signPolls st event =
            pre ++ (8, Sample.secondThoughts Sample.event "pk") :: post)
    by (vm_compute; reflexivity).
  assert (H2 : AllDecline pre 0%nat 1%nat).
  { eapply AllDecline_cons; [reflexivity|]. apply AllDecline_nil. }
  assert (H3 : Sample.secondThoughts Sample.event "pk" 1%nat =
               (Fulfilled true, 2%nat)) by reflexivity.
  split; [exact H1|]. split; [exact H2|]. split; [exact H3|].
  exact (sign_event_short_circuit st event 0%nat pre post 8 _ 1%nat 2%nat
           H1 H2 H3).
Defined.

Lemma default_deny_witness :
  let event := (Sample.event, "pk"%string) in
  (signEventRequestHandlers Sample.nobody = ∅
   /\ effects (sign_event_request_listener Sample.nobody event tt) =
        [respond_to_sign_event_request "e1" false])
  /\
  (payInvoiceRequestHandlers Sample.nobody = ∅
   /\ effects (pay_invoice_request_listener Sample.nobody "lnbc1" tt) =
        [respond_to_pay_invoice_request "lnbc1" false])
  /\
  (AllDecline (signPolls Sample.allDecline event) tt tt
   /\ effects (sign_event_request_listener Sample.allDecline event tt) =
        [Called 3; Called 4; respond_to_sign_event_request "e1" false])
  /\
  (AllDecline (payPolls Sample.allDecline "lnbc1") tt tt
   /\ effects (pay_invoice_request_listener Sample.allDecline "lnbc1" tt) =
        [Called 3; Called 4; respond_to_pay_invoice_request "lnbc1" false]).
Proof.
  intros event.
  pose proof (default_deny Sample.nobody event "lnbc1" tt)
    as (Hs0 & Hp0 & _ & _).
  pose proof (default_deny Sample.allDecline event "lnbc1" tt)
    as (_ & _ & Hs & Hp).
  assert (Ds : AllDecline (signPolls Sample.allDecline event) tt tt).
  { vm_compute. repeat (eapply AllDecline_cons; [reflexivity|]).
    apply AllDecline_nil. }
  assert (Dp : AllDecline (payPolls Sample.allDecline "lnbc1") tt tt).
  { vm_compute. repeat (eapply AllDecline_cons; [reflexivity|]).
    apply AllDecline_nil. }
  split; [split; [reflexivity | exact (Hs0 eq_refl)]|].
  split; [split; [reflexivity | exact (Hp0 eq_refl)]|].
  split; [split; [exact Ds | exact (Hs tt Ds)]|].
  split; [exact Dp | exact (Hp tt Dp)].
Defined.

Lemma rejection_aborts_dispatch_witness :
  let st := Sample.throwsThenApproves in
  let event := (Sample.event, "pk"%string) in
  let post := [(2, Sample.approves Sample.event "pk")] in
  let run := sign_event_request_listener st event tt in
  AllDecline [] tt tt
  /\ Sample.throws Sample.event "pk" tt = (Rejected, tt)
  /\ signPolls st event = [] ++ (1, Sample.throws Sample.event "pk") :: post
  /\ effects run = [Called 1]
  /\ responses (effects run) = []
  /\ completion run = RejectedPromise
  /\ forall k', k' ∈ post.*1 -> timesCalled k' (effects run) = 0%nat.
Proof.
  intros st event post run.
  assert (H1 : signPolls st event =
               [] ++ (1, Sample.throws Sample.event "pk") :: post)
    by (vm_compute; reflexivity).
  split; [apply AllDecline_nil|]. split; [reflexivity|].
  split; [exact H1|].
  exact (proj1 (rejection_aborts_dispatch st event "lnbc1" tt [] post 1
                  (Sample.throws Sample.event "pk") tt tt
                  (AllDecline_nil tt) eq_refl) H1).
Defined.

(* ===================================================================== *)
(** * Registration *)
(* ===================================================================== *)

Section Allocation.

Variable Math_random : nat -> Q.
Context {A : Type}.
Implicit Types (registry : gmap Z A) (k : Z).

(** What the loop returns is free. *)
Lemma whileInUse_free fuel registry calls k0 k calls' :
  whileInUse Math_random fuel registry calls k0 = Some (k, calls') ->
  registry !! k = None.
Proof.
  revert calls k0.
  induction fuel as [|fuel IH]; intros calls k0; simpl;
    destruct (registry !! k0) eqn:Hk0; intros Heq; simplify_eq; eauto.
Qed.

Lemma freshHandlerId_free fuel registry calls k calls' :
  freshHandlerId Math_random fuel registry calls = Some (k, calls') ->
  registry !! k = None.
Proof. apply whileInUse_free. Qed.

(** The loop stops at the latest when a free value is drawn. *)
Lemma whileInUse_stops d registry calls k0 :
  registry !! getRandomInt Math_random 1000000 (calls + d) = None ->
  exists k calls',
    whileInUse Math_random (S d) registry calls k0 = Some (k, calls').
Proof.
  revert calls k0. induction d as [|d IH]; intros calls k0 Hfree.
  - rewrite Nat.add_0_r in Hfree. simpl.
    destruct (registry !! k0); [|eauto]. rewrite Hfree. eauto.
  - change (whileInUse Math_random (S (S d)) registry calls k0)
      with (match registry !! k0 with
            | None => Some (k0, calls)
            | Some _ => whileInUse Math_random (S d) registry (S calls)
                          (getRandomInt Math_random 1000000 calls)
            end).
    destruct (registry !! k0); [|eauto].
    apply IH. by replace (S calls + d)%nat with (calls + S d)%nat by lia.
Qed.

(** A set that holds all of 0 .. n-1 has at least n elements. *)
Lemma size_ge_of_full (X : gset Z) (n : nat) :
  (forall i, 0 <= i < Z.of_nat n -> i ∈ X) -> (n <= size X)%nat.
Proof.
  intros Hfull.
  assert (Hsub : list_to_set (C := gset Z) (seqZ 0 (Z.of_nat n)) ⊆ X).
  { intros i Hi. apply elem_of_list_to_set, elem_of_seqZ in Hi.
    apply Hfull. lia. }
  apply subseteq_size in Hsub.
  rewrite size_list_to_set in Hsub by apply NoDup_seqZ.
  rewrite length_seqZ in Hsub. lia.
Qed.

(** Below any bound, a set has a gap or holds everything. *)
Lemma gap_or_full (X : gset Z) (n : nat) :
  (exists i, 0 <= i < Z.of_nat n /\ i ∉ X)
  \/ (forall i, 0 <= i < Z.of_nat n -> i ∈ X).
Proof.
  induction n as [|n [(i & Hi & Hni)|Hfull]].
  - right. intros i Hi. lia.
  - left. exists i. split; [lia|done].
  - destruct (decide (Z.of_nat n ∈ X)) as [Hin|Hnin].
    + right. intros i Hi.
      destruct (decide (i = Z.of_nat n)) as [->|Hne]; [done|].
      apply Hfull. lia.
    + left. exists (Z.of_nat n). split; [lia|done].
Qed.

(** A registry with fewer entries than the identity space has a free
    identity. *)
Lemma free_identity_exists registry :
  Z.of_nat (size registry) < 1000000 ->
  exists k, 0 <= k < 1000000 /\ registry !! k = None.
Proof.
  intros Hsize.
  destruct (gap_or_full (dom registry) (Z.to_nat 1000000))
    as [(i & Hi & Hni)|Hfull].
  - exists i. split; [lia|]. by apply not_elem_of_dom.
  - apply size_ge_of_full in Hfull. rewrite size_dom in Hfull. lia.
Qed.

(** With a fair source and a registry that is not full, the allocation
    returns, and what it returns is free. *)
Lemma freshHandlerId_terminates registry calls :
  FairDraws Math_random ->
  Z.of_nat (size registry) < 1000000 ->
  exists fuel k calls',
    freshHandlerId Math_random fuel registry calls = Some (k, calls')
    /\ registry !! k = None.
Proof.
  intros Hfair Hsize.
  destruct (free_identity_exists registry Hsize) as (f & Hf & Hfree).
  destruct (Hfair (S calls) f Hf) as (n & Hn & Hdraw).
  destruct (whileInUse_stops (n - S calls) registry (S calls)
              (getRandomInt Math_random 1000000 calls)) as (k & calls' & Hk).
  { replace (S calls + (n - S calls))%nat with n by lia. by rewrite Hdraw. }
  exists (S (n - S calls)), k, calls'. split; [exact Hk|].
  eapply whileInUse_free, Hk.
Qed.

End Allocation.

Section Registries.

Context {Env : Type}.
Variable Math_random : nat -> Q.
Implicit Types (st : Store Env) (k : Z).

Lemma handleSignEventRequests_body_spec fuel h st k st' :
  handleSignEventRequests_body Math_random fuel h st = Some (k, st') ->
  signEventRequestHandlers st !! k = None
  /\ signEventRequestHandlers st' = <[k := h]> (signEventRequestHandlers st)
  /\ payInvoiceRequestHandlers st' = payInvoiceRequestHandlers st.
Proof.
  unfold handleSignEventRequests_body.
  destruct (freshHandlerId _ _ _ _) as [[k0 calls]|] eqn:Hfresh; [|done].
  intros [= <- <-]. simpl. split; [|done].
  eapply freshHandlerId_free, Hfresh.
Qed.

Lemma handlePayInvoiceRequests_body_spec fuel h st k st' :
  handlePayInvoiceRequests_body Math_random fuel h st = Some (k, st') ->
  payInvoiceRequestHandlers st !! k = None
  /\ payInvoiceRequestHandlers st' = <[k := h]> (payInvoiceRequestHandlers st)
  /\ signEventRequestHandlers st' = signEventRequestHandlers st.
Proof.
  unfold handlePayInvoiceRequests_body.
  destruct (freshHandlerId _ _ _ _) as [[k0 calls]|] eqn:Hfresh; [|done].
  intros [= <- <-]. simpl. split; [|done].
  eapply freshHandlerId_free, Hfresh.
Qed.

(** What a run of registrations leaves behind: the identities handed out
    were free before, are taken afterwards, and nothing else changed. *)
Lemma registerEach_spec fuel rs st ss ps st' :
  registerEach Math_random fuel rs st = Some (ss, ps, st') ->
  NoDup ss /\ NoDup ps
  /\ dom (signEventRequestHandlers st') =
       list_to_set ss ∪ dom (signEventRequestHandlers st)
  /\ dom (payInvoiceRequestHandlers st') =
       list_to_set ps ∪ dom (payInvoiceRequestHandlers st)
  /\ (forall k, k ∈ ss -> signEventRequestHandlers st !! k = None)
  /\ (forall k, k ∈ ps -> payInvoiceRequestHandlers st !! k = None)
  /\ (length ss + length ps = length rs)%nat.
Proof.
  revert st ss ps st'.
  induction rs as [|[h|h] rs IH]; intros st ss ps st'; simpl.
  - intros [= <- <- <-]. repeat split; try constructor.
    + by rewrite list_to_set_nil, (left_id_L ∅ (∪)).
    + by rewrite list_to_set_nil, (left_id_L ∅ (∪)).
    + by intros k ?%elem_of_nil.
    + by intros k ?%elem_of_nil.
  - destruct (handleSignEventRequests_body _ _ _ _) as [[k st1]|] eqn:Hreg;
      [|done].
    destruct (registerEach _ _ _ _) as [[[ss1 ps1] st2]|] eqn:Hrest; [|done].
    intros [= <- <- <-].
    apply handleSignEventRequests_body_spec in Hreg as (Hfree & Hs1 & Hp1).
    apply IH in Hrest as (Hnd1 & Hnd2 & Hds & Hdp & Hfs & Hfp & Hlen).
    rewrite Hs1 in Hds, Hfs. rewrite Hp1 in Hdp, Hfp.
    rewrite dom_insert_L in Hds.
    repeat split; try done.
    + apply NoDup_cons. split; [|done]. intros Hin.
      specialize (Hfs _ Hin). by rewrite lookup_insert_eq in Hfs.
    + rewrite Hds, list_to_set_cons, (assoc_L (∪)).
      by rewrite (comm_L (∪) (list_to_set ss1) {[k]}).
    + intros k' [->|Hin]%elem_of_cons; [done|].
      specialize (Hfs _ Hin).
      by apply lookup_insert_None in Hfs as [? _].
    + simpl. lia.
  - destruct (handlePayInvoiceRequests_body _ _ _ _) as [[k st1]|] eqn:Hreg;
      [|done].
    destruct (registerEach _ _ _ _) as [[[ss1 ps1] st2]|] eqn:Hrest; [|done].
    intros [= <- <- <-].
    apply handlePayInvoiceRequests_body_spec in Hreg as (Hfree & Hp1 & Hs1).
    apply IH in Hrest as (Hnd1 & Hnd2 & Hds & Hdp & Hfs & Hfp & Hlen).
    rewrite Hs1 in Hds, Hfs. rewrite Hp1 in Hdp, Hfp.
    rewrite dom_insert_L in Hdp.
    repeat split; try done.
    + apply NoDup_cons. split; [|done]. intros Hin.
      specialize (Hfp _ Hin). by rewrite lookup_insert_eq in Hfp.
    + rewrite Hdp, list_to_set_cons, (assoc_L (∪)).
      by rewrite (comm_L (∪) (list_to_set ps1) {[k]}).
    + intros k' [->|Hin]%elem_of_cons; [done|].
      specialize (Hfp _ Hin).
      by apply lookup_insert_None in Hfp as [? _].
    + simpl. lia.
Qed.

(** The size of a registry after fresh identities were added to it. *)
Lemma size_after_fresh {B} (before after : gmap Z B) (ks : list Z) :
  NoDup ks ->
  (forall k, k ∈ ks -> before !! k = None) ->
  dom after = list_to_set ks ∪ dom before ->
  size after = (length ks + size before)%nat.
Proof.
  intros Hnd Hfree Hdom.
  rewrite <- !size_dom, Hdom, size_union.
  - by rewrite size_list_to_set.
  - intros k Hk Hk'. apply elem_of_list_to_set in Hk.
    apply Hfree in Hk. by apply not_elem_of_dom in Hk.
Qed.

End Registries.

Section RegistrationClaims.

Context {Env : Type}.
Variable Math_random : nat -> Q.
Implicit Types (st : Store Env) (k : Z).

(** C6. Identity freshness: a run of N registrations, into the two
    registries in any interleaving, hands out pairwise distinct identities
    within each registry, none of which was in use before; every one of the
    N handlers gets an entry of its own (each registry grows by the number
    of handlers registered into it); and in every store the keys of each
    registry are unique. *)
Theorem registered_identities_distinct fuel (rs : list (Registration Env))
    st ss ps st' :
  registerEach Math_random fuel rs st = Some (ss, ps, st') ->
  NoDup ss /\ NoDup ps
  /\ (length ss + length ps = length rs)%nat
  /\ (forall k, k ∈ ss ->
        signEventRequestHandlers st !! k = None
        /\ is_Some (signEventRequestHandlers st' !! k))
  /\ (forall k, k ∈ ps ->
        payInvoiceRequestHandlers st !! k = None
        /\ is_Some (payInvoiceRequestHandlers st' !! k))
  /\ size (signEventRequestHandlers st') =
       (length ss + size (signEventRequestHandlers st))%nat
  /\ size (payInvoiceRequestHandlers st') =
       (length ps + size (payInvoiceRequestHandlers st))%nat
  /\ (forall any : Store Env,
        NoDup (Object_keys (signEventRequestHandlers any))
        /\ NoDup (Object_keys (payInvoiceRequestHandlers any))).
Proof.
  intros Hreg.
  apply registerEach_spec in Hreg
    as (Hnd1 & Hnd2 & Hds & Hdp & Hfs & Hfp & Hlen).
  repeat split; try done.
  - by apply Hfs.
  - apply elem_of_dom. rewrite Hds. apply elem_of_union_l.
    by apply elem_of_list_to_set.
  - by apply Hfp.
  - apply elem_of_dom. rewrite Hdp. apply elem_of_union_l.
    by apply elem_of_list_to_set.
  - by apply size_after_fresh.
  - by apply size_after_fresh.
  - apply Object_keys_NoDup.
  - apply Object_keys_NoDup.
Qed.

(** C7. Unregistering is idempotent: the capability returned by a
    registration deletes the entry of that registration and nothing else;
    invoked a second time it changes nothing, and invoked on a store that
    has no entry under the identity it changes nothing.  The capability is
    a total function on stores: it cannot fail. *)
Theorem unregister_idempotent fuel (hs : SignEventRequestHandler Env)
    (hp : PayInvoiceRequestHandler Env) st st1 (unregister : Store Env -> Store Env) :
  (handleSignEventRequests Math_random fuel hs st = Some (unregister, st1) ->
   exists k,
     signEventRequestHandlers st1 !! k = Some hs
     /\ signEventRequestHandlers (unregister st1) !! k = None
     /\ (forall st2,
           signEventRequestHandlers (unregister st2) =
             delete k (signEventRequestHandlers st2)
           /\ payInvoiceRequestHandlers (unregister st2) =
                payInvoiceRequestHandlers st2)
     /\ (forall st2, unregister (unregister st2) = unregister st2)
     /\ (forall st2, signEventRequestHandlers st2 !! k = None ->
                     unregister st2 = st2))
  /\
  (handlePayInvoiceRequests Math_random fuel hp st = Some (unregister, st1) ->
   exists k,
     payInvoiceRequestHandlers st1 !! k = Some hp
     /\ payInvoiceRequestHandlers (unregister st1) !! k = None
     /\ (forall st2,
           payInvoiceRequestHandlers (unregister st2) =
             delete k (payInvoiceRequestHandlers st2)
           /\ signEventRequestHandlers (unregister st2) =
                signEventRequestHandlers st2)
     /\ (forall st2, unregister (unregister st2) = unregister st2)
     /\ (forall st2, payInvoiceRequestHandlers st2 !! k = None ->
                     unregister st2 = st2)).
Proof.
  split.
  - unfold handleSignEventRequests.
    destruct (handleSignEventRequests_body _ _ _ _) as [[k st']|] eqn:Hreg;
      [|done].
    intros [= <- <-]. exists k.
    apply handleSignEventRequests_body_spec in Hreg as (_ & Hs & _).
    repeat split.
    + rewrite Hs. apply lookup_insert_eq.
    + simpl. apply lookup_delete_eq.
    + intros [s p c]. unfold unregisterSignEvent. simpl.
      by rewrite delete_delete_eq.
    + intros [s p c] Hnone. unfold unregisterSignEvent. simpl in *.
      by rewrite delete_id.
  - unfold handlePayInvoiceRequests.
    destruct (handlePayInvoiceRequests_body _ _ _ _) as [[k st']|] eqn:Hreg;
      [|done].
    intros [= <- <-]. exists k.
    apply handlePayInvoiceRequests_body_spec in Hreg as (_ & Hp & _).
    repeat split.
    + rewrite Hp. apply lookup_insert_eq.
    + simpl. apply lookup_delete_eq.
    + intros [s p c]. unfold unregisterPayInvoice. simpl.
      by rewrite delete_delete_eq.
    + intros [s p c] Hnone. unfold unregisterPayInvoice. simpl in *.
      by rewrite delete_id.
Qed.

(** C8. Termination of the allocation: when the random source keeps drawing
    every value of the identity space and the registry holds fewer than
    1,000,000 entries, the generate-and-check loop of a registration comes
    to an end, and the identity it returns was not in use in that registry;
    the handler is stored under it. *)
Theorem identity_allocation_terminates (hs : SignEventRequestHandler Env)
    (hp : PayInvoiceRequestHandler Env) st :
  FairDraws Math_random ->
  (Z.of_nat (size (signEventRequestHandlers st)) < 1000000 ->
   exists fuel k st',
     handleSignEventRequests_body Math_random fuel hs st = Some (k, st')
     /\ signEventRequestHandlers st !! k = None
     /\ signEventRequestHandlers st' !! k = Some hs)
  /\
  (Z.of_nat (size (payInvoiceRequestHandlers st)) < 1000000 ->
   exists fuel k st',
     handlePayInvoiceRequests_body Math_random fuel hp st = Some (k, st')
     /\ payInvoiceRequestHandlers st !! k = None
     /\ payInvoiceRequestHandlers st' !! k = Some hp).
Proof.
  intros Hfair. split; intros Hsize.
  - destruct (freshHandlerId_terminates Math_random
                (signEventRequestHandlers st) (randomCalls st) Hfair Hsize)
      as (fuel & k & calls' & Hfresh & Hfree).
    exists fuel, k. eexists. unfold handleSignEventRequests_body.
    rewrite Hfresh. split; [reflexivity|]. split; [done|].
    simpl. apply lookup_insert_eq.
  - destruct (freshHandlerId_terminates Math_random
                (payInvoiceRequestHandlers st) (randomCalls st) Hfair Hsize)
      as (fuel & k & calls' & Hfresh & Hfree).
    exists fuel, k. eexists. unfold handlePayInvoiceRequests_body.
    rewrite Hfresh. split; [reflexivity|]. split; [done|].
    simpl. apply lookup_insert_eq.
Qed.

End RegistrationClaims.

Section SharedHandler.

Context {Env : Type}.
Variable Math_random : nat -> Q.
Implicit Types (st : Store Env) (k : Z).

(** Every handler of a snapshot that declined throughout was called once. *)
Lemma declined_called_once (respond : bool -> Effect)
    (snapshot : list (Z * Poll Env)) (env env' : Env) k :
  (forall b, isResponse (respond b) = true) ->
  NoDup snapshot.*1 ->
  AllDecline snapshot env env' ->
  k ∈ snapshot.*1 ->
  timesCalled k
    (effects (afterLoop respond (pollHandlers snapshot false env))) = 1%nat.
Proof.
  intros Hr Hnd Hall Hk. unfold timesCalled.
  rewrite afterLoop_calledIds by done.
  rewrite (pollHandlers_AllDecline _ _ _ Hall). simpl.
  apply NoDup_ListNoDup in Hnd. apply list_elem_of_In in Hk.
  by apply (proj1 (NoDup_count_occ' Z.eq_dec _) Hnd).
Qed.

(** A dispatch whose handlers all decline, in full. *)
Lemma run_of_declines (respond : bool -> Effect)
    (snapshot : list (Z * Poll Env)) (env env' : Env) :
  AllDecline snapshot env env' ->
  afterLoop respond (pollHandlers snapshot false env) =
    {| effects := (Called <$> snapshot.*1) ++ [respond false];
       completion := Resolved; world := env' |}.
Proof. intros Hall. by rewrite (pollHandlers_AllDecline _ _ _ Hall). Qed.

(** A dispatch that meets an approving handler, in full: the handlers up to
    it are called once each, those behind it are not called. *)
Lemma run_of_approval (respond : bool -> Effect)
    (pre post : list (Z * Poll Env)) (k : Z) (p : Poll Env)
    (env env1 env2 : Env) :
  (forall b, isResponse (respond b) = true) ->
  NoDup (pre ++ (k, p) :: post).*1 ->
  AllDecline pre env env1 ->
  p env1 = (Fulfilled true, env2) ->
  let run := afterLoop respond
               (pollHandlers (pre ++ (k, p) :: post) false env) in
  run = {| effects := (Called <$> (pre.*1 ++ [k])) ++ [respond true];
           completion := Resolved; world := env2 |}
  /\ (forall k', k' ∈ pre.*1 ++ [k] -> timesCalled k' (effects run) = 1%nat)
  /\ (forall k', k' ∈ post.*1 -> timesCalled k' (effects run) = 0%nat).
Proof.
  intros Hr Hnd Hpre Hp run.
  assert (Hrun : run =
    {| effects := (Called <$> (pre.*1 ++ [k])) ++ [respond true];
       completion := Resolved; world := env2 |}).
  { unfold run. by rewrite (approval_ends_loop _ _ _ _ _ _ _ Hpre Hp). }
  split; [exact Hrun|]. rewrite Hrun. simpl. unfold timesCalled.
  rewrite calledIds_Called_then by done. split.
  - intros k' Hk'.
    assert (Hnd' : NoDup (pre.*1 ++ [k])).
    { rewrite fmap_app, fmap_cons in Hnd. simpl in Hnd.
      apply NoDup_app in Hnd as (Hndpre & Hdisj & _).
      apply NoDup_app. split; [done|]. split; [|apply NoDup_singleton].
      intros x Hx Hx'. apply list_elem_of_singleton in Hx' as ->.
      apply (Hdisj k Hx). by left. }
    apply NoDup_ListNoDup in Hnd'. apply list_elem_of_In in Hk'.
    by apply (proj1 (NoDup_count_occ' Z.eq_dec _) Hnd').
  - intros k' Hk'. by apply (later_not_called pre post k k' p).
Qed.

(** C9. One handler function registered twice in a registry: the two
    registrations get different identities and both entries hold the
    function, so that a dispatch polls the function under both.  A dispatch
    calls the entries in snapshot order, each with the world the call
    before it left, until one answers true: when every entry declines, every
    entry has been called, the function once for each of its two entries,
    and the response is approved = false; when an entry answers true, the
    entries up to it have been called once each, those behind it are not
    called, and the response is approved = true.  The capability of the first
    registration deletes the first entry only: the second entry, every other
    entry of the registry and the other registry stay as they are.  The same
    holds in the pay-invoice registry. *)
Theorem same_handler_registered_twice fuel1 fuel2
    (hs : SignEventRequestHandler Env) (hp : PayInvoiceRequestHandler Env)
    st st1 st2 (unregister1 unregister2 : Store Env -> Store Env) :
  (handleSignEventRequests Math_random fuel1 hs st = Some (unregister1, st1) ->
   handleSignEventRequests Math_random fuel2 hs st1 = Some (unregister2, st2) ->
   exists k1 k2,
     handleSignEventRequests_body Math_random fuel1 hs st = Some (k1, st1)
     /\ handleSignEventRequests_body Math_random fuel2 hs st1 = Some (k2, st2)
     /\ k1 <> k2
     /\ signEventRequestHandlers st2 !! k1 = Some hs
     /\ signEventRequestHandlers st2 !! k2 = Some hs
     /\ size (signEventRequestHandlers st2) =
          S (S (size (signEventRequestHandlers st)))
     /\ (forall event env,
           let run := sign_event_request_listener st2 event env in
           (k1, hs event.1 event.2) ∈ signPolls st2 event
           /\ (k2, hs event.1 event.2) ∈ signPolls st2 event
           /\ calledIds (effects run)
                `prefix_of` Object_keys (signEventRequestHandlers st2)
           /\ (timesCalled k1 (effects run) <= 1)%nat
           /\ (timesCalled k2 (effects run) <= 1)%nat
           /\ (forall env', AllDecline (signPolls st2 event) env env' ->
                 run = {| effects :=
                            (Called <$> Object_keys
                                          (signEventRequestHandlers st2))
                              ++ [respond_to_sign_event_request
                                    (Types.id event.1) false];
                          completion := Resolved; world := env' |}
                 /\ timesCalled k1 (effects run) = 1%nat
                 /\ timesCalled k2 (effects run) = 1%nat)
           /\ (forall pre k (p : Poll Env) post env1 env2,
                 signPolls st2 event = pre ++ (k, p) :: post ->
                 AllDecline pre env env1 ->
                 p env1 = (Fulfilled true, env2) ->
                 run = {| effects :=
                            (Called <$> (pre.*1 ++ [k]))
                              ++ [respond_to_sign_event_request
                                    (Types.id event.1) true];
                          completion := Resolved; world := env2 |}
                 /\ (forall k', k' ∈ pre.*1 ++ [k] ->
                       timesCalled k' (effects run) = 1%nat)
                 /\ (forall k', k' ∈ post.*1 ->
                       timesCalled k' (effects run) = 0%nat)))
     /\ signEventRequestHandlers (unregister1 st2) !! k1 = None
     /\ signEventRequestHandlers (unregister1 st2) !! k2 = Some hs
     /\ (forall k, k <> k1 ->
           signEventRequestHandlers (unregister1 st2) !! k =
             signEventRequestHandlers st2 !! k)
     /\ payInvoiceRequestHandlers (unregister1 st2) =
          payInvoiceRequestHandlers st2)
  /\
  (handlePayInvoiceRequests Math_random fuel1 hp st = Some (unregister1, st1) ->
   handlePayInvoiceRequests Math_random fuel2 hp st1 = Some (unregister2, st2) ->
   exists k1 k2,
     handlePayInvoiceRequests_body Math_random fuel1 hp st = Some (k1, st1)
     /\ handlePayInvoiceRequests_body Math_random fuel2 hp st1 = Some (k2, st2)
     /\ k1 <> k2
     /\ payInvoiceRequestHandlers st2 !! k1 = Some hp
     /\ payInvoiceRequestHandlers st2 !! k2 = Some hp
     /\ size (payInvoiceRequestHandlers st2) =
          S (S (size (payInvoiceRequestHandlers st)))
     /\ (forall invoice env,
           let run := pay_invoice_request_listener st2 invoice env in
           (k1, hp invoice) ∈ payPolls st2 invoice
           /\ (k2, hp invoice) ∈ payPolls st2 invoice
           /\ calledIds (effects run)
                `prefix_of` Object_keys (payInvoiceRequestHandlers st2)
           /\ (timesCalled k1 (effects run) <= 1)%nat
           /\ (timesCalled k2 (effects run) <= 1)%nat
           /\ (forall env', AllDecline (payPolls st2 invoice) env env' ->
                 run = {| effects :=
                            (Called <$> Object_keys
                                          (payInvoiceRequestHandlers st2))
                              ++ [respond_to_pay_invoice_request invoice false];
                          completion := Resolved; world := env' |}
                 /\ timesCalled k1 (effects run) = 1%nat
                 /\ timesCalled k2 (effects run) = 1%nat)
           /\ (forall pre k (p : Poll Env) post env1 env2,
                 payPolls st2 invoice = pre ++ (k, p) :: post ->
                 AllDecline pre env env1 ->
                 p env1 = (Fulfilled true, env2) ->
                 run = {| effects :=
                            (Called <$> (pre.*1 ++ [k]))
                              ++ [respond_to_pay_invoice_request invoice true];
                          completion := Resolved; world := env2 |}
                 /\ (forall k', k' ∈ pre.*1 ++ [k] ->
                       timesCalled k' (effects run) = 1%nat)
                 /\ (forall k', k' ∈ post.*1 ->
                       timesCalled k' (effects run) = 0%nat)))
     /\ payInvoiceRequestHandlers (unregister1 st2) !! k1 = None
     /\ payInvoiceRequestHandlers (unregister1 st2) !! k2 = Some hp
     /\ (forall k, k <> k1 ->
           payInvoiceRequestHandlers (unregister1 st2) !! k =
             payInvoiceRequestHandlers st2 !! k)
     /\ signEventRequestHandlers (unregister1 st2) =
          signEventRequestHandlers st2).
Proof.
  split.
  - unfold handleSignEventRequests.
    destruct (handleSignEventRequests_body _ fuel1 _ _) as [[k1 st1']|] eqn:H1;
      [|done].
    intros [= <- <-].
    destruct (handleSignEventRequests_body _ fuel2 _ _) as [[k2 st2']|] eqn:H2;
      [|done].
    intros [= <- <-]. exists k1, k2.
    split; [done|]. split; [done|].
    apply handleSignEventRequests_body_spec in H1 as (Hf1 & Hs1 & Hp1).
    apply handleSignEventRequests_body_spec in H2 as (Hf2 & Hs2 & Hp2).
    assert (Hne : k1 <> k2).
    { intros ->. rewrite Hs1, lookup_insert_eq in Hf2. done. }
    assert (Hk1 : signEventRequestHandlers st2' !! k1 = Some hs).
    { rewrite Hs2, lookup_insert_ne by done. rewrite Hs1.
      apply lookup_insert_eq. }
    assert (Hk2 : signEventRequestHandlers st2' !! k2 = Some hs).
    { rewrite Hs2. apply lookup_insert_eq. }
    split; [done|]. split; [done|]. split; [done|]. split.
    { rewrite Hs2, map_size_insert_None by done.
      by rewrite Hs1, map_size_insert_None. }
    split.
    { intros event env.
      set (run := sign_event_request_listener st2' event env).
      assert (Hnd : NoDup (signPolls st2' event).*1).
      { rewrite signPolls_keys. apply Object_keys_NoDup. }
      assert (Hin : forall k, signEventRequestHandlers st2' !! k = Some hs ->
                (k, hs event.1 event.2) ∈ signPolls st2' event).
      { intros k Hk. unfold signPolls. apply list_elem_of_fmap.
        exists (k, hs). split; [done|]. by apply elem_of_Object_entries. }
      split; [by apply Hin|]. split; [by apply Hin|]. split.
      { unfold run, sign_event_request_listener.
        rewrite afterLoop_calledIds by done.
        rewrite <- (signPolls_keys st2' event). apply pollHandlers_prefix. }
      split; [by apply timesCalled_le_1|].
      split; [by apply timesCalled_le_1|]. split.
      { intros env' Hall. split.
        { unfold run, sign_event_request_listener.
          by rewrite (run_of_declines _ _ _ _ Hall), signPolls_keys. }
        split; (eapply declined_called_once; [done|done|exact Hall|]);
          rewrite signPolls_keys; apply elem_of_Object_keys; eauto. }
      intros pre k p post env1 env2 Hsnap Hpre Hp.
      unfold run, sign_event_request_listener. rewrite Hsnap.
      apply (run_of_approval _ pre post k p env env1 env2); try done.
      by rewrite <- Hsnap. }
    simpl. split; [apply lookup_delete_eq|].
    split; [by rewrite lookup_delete_ne|].
    split; [|done]. intros k Hk. by rewrite lookup_delete_ne.
  - unfold handlePayInvoiceRequests.
    destruct (handlePayInvoiceRequests_body _ fuel1 _ _) as [[k1 st1']|] eqn:H1;
      [|done].
    intros [= <- <-].
    destruct (handlePayInvoiceRequests_body _ fuel2 _ _) as [[k2 st2']|] eqn:H2;
      [|done].
    intros [= <- <-]. exists k1, k2.
    split; [done|]. split; [done|].
    apply handlePayInvoiceRequests_body_spec in H1 as (Hf1 & Hp1 & Hs1).
    apply handlePayInvoiceRequests_body_spec in H2 as (Hf2 & Hp2 & Hs2).
    assert (Hne : k1 <> k2).
    { intros ->. rewrite Hp1, lookup_insert_eq in Hf2. done. }
    assert (Hk1 : payInvoiceRequestHandlers st2' !! k1 = Some hp).
    { rewrite Hp2, lookup_insert_ne by done. rewrite Hp1.
      apply lookup_insert_eq. }
    assert (Hk2 : payInvoiceRequestHandlers st2' !! k2 = Some hp).
    { rewrite Hp2. apply lookup_insert_eq. }
    split; [done|]. split; [done|]. split; [done|]. split.
    { rewrite Hp2, map_size_insert_None by done.
      by rewrite Hp1, map_size_insert_None. }
    split.
    { intros invoice env.
      set (run := pay_invoice_request_listener st2' invoice env).
      assert (Hnd : NoDup (payPolls st2' invoice).*1).
      { rewrite payPolls_keys. apply Object_keys_NoDup. }
      assert (Hin : forall k, payInvoiceRequestHandlers st2' !! k = Some hp ->
                (k, hp invoice) ∈ payPolls st2' invoice).
      { intros k Hk. unfold payPolls. apply list_elem_of_fmap.
        exists (k, hp). split; [done|]. by apply elem_of_Object_entries. }
      split; [by apply Hin|]. split; [by apply Hin|]. split.
      { unfold run, pay_invoice_request_listener.
        rewrite afterLoop_calledIds by done.
        rewrite <- (payPolls_keys st2' invoice). apply pollHandlers_prefix. }
      split; [by apply timesCalled_le_1|].
      split; [by apply timesCalled_le_1|]. split.
      { intros env' Hall. split.
        { unfold run, pay_invoice_request_listener.
          by rewrite (run_of_declines _ _ _ _ Hall), payPolls_keys. }
        split; (eapply declined_called_once; [done|done|exact Hall|]);
          rewrite payPolls_keys; apply elem_of_Object_keys; eauto. }
      intros pre k p post env1 env2 Hsnap Hpre Hp.
      unfold run, pay_invoice_request_listener. rewrite Hsnap.
      apply (run_of_approval _ pre post k p env env1 env2); try done.
      by rewrite <- Hsnap. }
    simpl. split; [apply lookup_delete_eq|].
    split; [by rewrite lookup_delete_ne|].
    split; [|done]. intros k Hk. by rewrite lookup_delete_ne.
Qed.

End SharedHandler.

(* ===================================================================== *)
(** * The random source *)
(* ===================================================================== *)

(** ** Rounding to a double *)

Lemma pow2_nonneg_exp (k : Z) : 0 <= k -> pow2 k = inject_Z (2 ^ k).
Proof. intros Hk. unfold pow2. apply Z.leb_le in Hk. by rewrite Hk. Qed.

Lemma pow2_neg_exp (k : Z) : k < 0 -> pow2 k = (/ inject_Z (2 ^ (- k)))%Q.
Proof. intros Hk. unfold pow2. apply Z.leb_gt in Hk. by rewrite Hk. Qed.

Lemma inject_pow2_pos (k : Z) : 0 <= k -> (0 < inject_Z (2 ^ k))%Q.
Proof.
  intros Hk. change 0%Q with (inject_Z 0). rewrite <- Zlt_Qlt.
  apply Z.pow_pos_nonneg; lia.
Qed.

Lemma pow2_pos (k : Z) : (0 < pow2 k)%Q.
Proof.
  destruct (Z_lt_le_dec k 0) as [Hk|Hk].
  - rewrite pow2_neg_exp by done. apply Qinv_lt_0_compat, inject_pow2_pos. lia.
  - rewrite pow2_nonneg_exp by done. by apply inject_pow2_pos.
Qed.

(** [pow2 (- s)] undoes [pow2 s]. *)
Lemma pow2_opp (s : Z) : 0 <= s -> (pow2 (- s) == / inject_Z (2 ^ s))%Q.
Proof.
  intros Hs. destruct (Z.eq_dec s 0) as [->|Hne]; [reflexivity|].
  rewrite pow2_neg_exp by lia. by rewrite Z.opp_involutive.
Qed.


Lemma binade_le (x : Q) : (0 < x)%Q -> (pow2 (binade x) <= x)%Q.
Proof.
  intros Hx. unfold binade.
  set (e0 := Z.log2 (Qnum x) - Z.log2 (Z.pos (Qden x))).
  destruct (Qle_bool (pow2 e0) x) eqn:Hle; [by apply Qle_bool_iff|].
  clear Hle. destruct x as [a b]. unfold Qlt in Hx. cbn [Qnum Qden] in Hx, e0.
  assert (Ha : 0 < a) by lia.
  pose proof (Z.log2_spec a Ha) as [Ha1 _].
  pose proof (Z.log2_spec (Z.pos b) eq_refl) as [_ Hb2].
  pose proof (Z.log2_nonneg a) as Hla.
  pose proof (Z.log2_nonneg (Z.pos b)) as Hlb.
  set (la := Z.log2 a) in *. set (lb := Z.log2 (Z.pos b)) in *.
  destruct (Z_lt_le_dec (e0 - 1) 0) as [Hk|Hk].
  - rewrite pow2_neg_exp by done.
    set (P := 2 ^ (- (e0 - 1))).
    assert (HP : 0 < P) by (apply Z.pow_pos_nonneg; lia).
    assert (Hsplit : 2 ^ Z.succ lb = 2 ^ la * P).
    { unfold P. rewrite <- Z.pow_add_r by lia. f_equal. unfold e0. lia. }
    apply Qle_shift_inv_r.
    + change 0%Q with (inject_Z 0). rewrite <- Zlt_Qlt. exact HP.
    + unfold Qle, Qmult, inject_Z. cbn [Qnum Qden].
      rewrite Pos2Z.inj_mul. nia.
  - rewrite pow2_nonneg_exp by done.
    set (P := 2 ^ (e0 - 1)).
    assert (HP : 0 < P) by (apply Z.pow_pos_nonneg; lia).
    assert (Hsplit : 2 ^ la = P * 2 ^ Z.succ lb).
    { unfold P. rewrite <- Z.pow_add_r by lia. f_equal. unfold e0. lia. }
    unfold Qle, inject_Z. cbn [Qnum Qden]. nia.
Qed.

Lemma roundHalfEven_cases (q : Q) :
  roundHalfEven q = Qfloor q
  \/ (roundHalfEven q = Qfloor q + 1 /\ (1 # 2 <= q - inject_Z (Qfloor q))%Q).
Proof.
  unfold roundHalfEven.
  destruct (Qcompare_spec (q - inject_Z (Qfloor q)) (1 # 2)) as [He|Hl|Hg].
  - destruct (Z.even (Qfloor q)); [by left|].
    right. split; [done|]. rewrite He. apply Qle_refl.
  - by left.
  - right. split; [done|]. by apply Qlt_le_weak.
Qed.

(** Rounding does not reach an integer that is more than a half away. *)
Lemma roundHalfEven_lt (q : Q) (N : Z) :
  (q < inject_Z N - (1 # 2))%Q -> roundHalfEven q < N.
Proof.
  intros Hq. pose proof (Qfloor_le q) as Hf.
  destruct (roundHalfEven_cases q) as [->|[-> Hhalf]].
  - rewrite Zlt_Qlt. lra.
  - rewrite Zlt_Qlt, inject_Z_plus. change (inject_Z 1) with 1%Q. lra.
Qed.

Lemma roundHalfEven_nonneg (q : Q) : (0 <= q)%Q -> 0 <= roundHalfEven q.
Proof.
  intros Hq.
  assert (0 <= Qfloor q).
  { change 0 with (Qfloor (inject_Z 0)). by apply Qfloor_resp_le. }
  destruct (roundHalfEven_cases q) as [->|[-> _]]; lia.
Qed.

(** An integer is its own rounding. *)
Lemma roundHalfEven_Z (q : Q) (n : Z) :
  (q == inject_Z n)%Q -> roundHalfEven q = n.
Proof.
  intros Hq. unfold roundHalfEven.
  assert (Hf : Qfloor q = n) by (rewrite Hq; apply Qfloor_Z).
  rewrite Hf.
  destruct (Qcompare_spec (q - inject_Z n) (1 # 2)) as [He|Hl|Hg];
    [exfalso; lra|done|exfalso; lra].
Qed.

(** A product with a double of [0, 1), rounded, stays below the other
    factor. *)
Lemma nearestDouble_below (y : Q) (max : Z) :
  (0 < y)%Q ->
  (y <= inject_Z max * (1 - (1 # 9007199254740992)))%Q ->
  0 < max <= 2 ^ 53 ->
  (0 <= nearestDouble y)%Q /\ (nearestDouble y < inject_Z max)%Q.
Proof.
  intros Hy Hle Hmax.
  assert (Hmx : (0 < inject_Z max)%Q).
  { change 0%Q with (inject_Z 0). rewrite <- Zlt_Qlt. lia. }
  assert (Hylt : (y < inject_Z max)%Q) by lra.
  pose proof (binade_le y Hy) as Hb.
  assert (Hb52 : binade y <= 52).
  { destruct (Z_lt_le_dec 52 (binade y)) as [Hbig|]; [|done]. exfalso.
    rewrite pow2_nonneg_exp in Hb by lia.
    assert (2 ^ 53 <= 2 ^ binade y) by (apply Z.pow_le_mono_r; lia).
    assert (inject_Z (2 ^ binade y) < inject_Z max)%Q by lra.
    rewrite <- Zlt_Qlt in *. lia. }
  unfold nearestDouble. set (e := Z.max (binade y) (-1022)).
  assert (He : e <= 52) by lia.
  set (s := 52 - e). assert (Hs : 0 <= s) by lia.
  replace (e - 52) with (- s) by lia.
  rewrite pow2_opp, pow2_nonneg_exp by done.
  set (P := 2 ^ s). assert (HP : 0 < P) by (apply Z.pow_pos_nonneg; lia).
  assert (HPQ : (0 < inject_Z P)%Q).
  { change 0%Q with (inject_Z 0). rewrite <- Zlt_Qlt. exact HP. }
  assert (HM : 2 ^ 52 < max * P).
  { destruct (Z_lt_le_dec e 0) as [Hneg|Hpos].
    - assert (2 ^ 52 < P) by (apply Z.pow_lt_mono_r; lia). nia.
    - assert (e = binade y) as Heq by lia.
      rewrite <- Heq, pow2_nonneg_exp in Hb by done.
      assert (inject_Z (2 ^ e) < inject_Z max)%Q by lra.
      rewrite <- Zlt_Qlt in *.
      assert (2 ^ 52 = 2 ^ e * P).
      { unfold P. rewrite <- Z.pow_add_r by lia. f_equal. lia. }
      nia. }
  set (q := (y * inject_Z P)%Q).
  assert (Hq0 : (0 <= q)%Q).
  { apply Qmult_le_0_compat; lra. }
  assert (HqM : (q < inject_Z (max * P) - (1 # 2))%Q).
  { assert (Hqle : (q <= inject_Z max * (1 - (1 # 9007199254740992))
                          * inject_Z P)%Q).
    { apply Qmult_le_compat_r; lra. }
    rewrite Zlt_Qlt in HM. rewrite inject_Z_mult in *.
    change (inject_Z (2 ^ 52)) with (4503599627370496 # 1)%Q in HM.
    set (M := (inject_Z max * inject_Z P)%Q) in *.
    assert (Hq' : (q <= M * (1 - (1 # 9007199254740992)))%Q).
    { unfold M. lra. }
    lra. }
  pose proof (roundHalfEven_lt q (max * P) HqM) as Hm.
  pose proof (roundHalfEven_nonneg q Hq0) as Hm0.
  split.
  - apply Qmult_le_0_compat.
    + change 0%Q with (inject_Z 0). by rewrite <- Zle_Qle.
    + apply Qinv_le_0_compat. lra.
  - apply Qlt_shift_div_r; [done|].
    rewrite <- inject_Z_mult, <- Zlt_Qlt. exact Hm.
Qed.

#[export] Instance toDouble_comp : Proper (Qeq ==> eq) toDouble.
Proof. intros x y Hxy. unfold toDouble. by rewrite (Qred_complete x y Hxy). Qed.

Lemma toDouble_below (x : Q) (max : Z) :
  (0 <= x)%Q ->
  (x <= inject_Z max * (1 - (1 # 9007199254740992)))%Q ->
  0 < max <= 2 ^ 53 ->
  (0 <= toDouble x)%Q /\ (toDouble x < inject_Z max)%Q.
Proof.
  intros Hx Hle Hmax. unfold toDouble.
  pose proof (Qred_correct x) as Hred.
  destruct (Qcompare_spec (Qred x) 0) as [He|Hl|Hg].
  - split; [lra|]. change 0%Q with (inject_Z 0). rewrite <- Zlt_Qlt. lia.
  - exfalso. lra.
  - apply nearestDouble_below; [done| |done]. lra.
Qed.

(** The integers up to 2^53 are doubles. *)
Lemma toDouble_Z (x : Q) (k : Z) :
  (x == inject_Z k)%Q -> 0 <= k < 2 ^ 53 -> (toDouble x == inject_Z k)%Q.
Proof.
  intros Hx Hk. rewrite Hx. clear x Hx. unfold toDouble.
  assert (Hred : Qred (inject_Z k) = inject_Z k).
  { apply Qred_identity. unfold inject_Z. cbn [Qnum Qden].
    apply Z.gcd_1_r. }
  rewrite Hred.
  destruct (Qcompare_spec (inject_Z k) 0) as [He|Hl|Hg].
  - by rewrite He.
  - exfalso. change 0%Q with (inject_Z 0) in Hl. rewrite <- Zlt_Qlt in Hl. lia.
  - change 0%Q with (inject_Z 0) in Hg. rewrite <- Zlt_Qlt in Hg.
    pose proof (Z.log2_spec k Hg) as [Hlo Hhi].
    pose proof (Z.log2_nonneg k) as Hl0.
    assert (Hl52 : Z.log2 k <= 52).
    { destruct (Z_lt_le_dec 52 (Z.log2 k)); [|done].
      assert (2 ^ 53 <= 2 ^ Z.log2 k) by (apply Z.pow_le_mono_r; lia). lia. }
    assert (Hbin : binade (inject_Z k) = Z.log2 k).
    { unfold binade, inject_Z. cbn [Qnum Qden].
      change (Z.log2 1) with 0. rewrite Z.sub_0_r.
      rewrite pow2_nonneg_exp by done.
      assert (Qle_bool (inject_Z (2 ^ Z.log2 k)) (k # 1) = true) as ->; [|done].
      apply Qle_bool_iff. change (k # 1) with (inject_Z k).
      by rewrite <- Zle_Qle. }
    unfold nearestDouble. rewrite Hbin, Z.max_l by lia.
    set (s := 52 - Z.log2 k). assert (Hs : 0 <= s) by lia.
    replace (Z.log2 k - 52) with (- s) by lia.
    rewrite pow2_opp, pow2_nonneg_exp by done.
    assert (HP : (0 < inject_Z (2 ^ s))%Q) by by apply inject_pow2_pos.
    rewrite (roundHalfEven_Z _ (k * 2 ^ s)) by (by rewrite inject_Z_mult).
    rewrite inject_Z_mult. field. lra.
Qed.

Lemma roundHalfEven_ge (q : Q) (N : Z) :
  (inject_Z N <= q)%Q -> N <= roundHalfEven q.
Proof.
  intros Hq.
  assert (N <= Qfloor q).
  { rewrite <- (Qfloor_Z N). by apply Qfloor_resp_le. }
  destruct (roundHalfEven_cases q) as [->|[-> _]]; lia.
Qed.

(** A product that lies well between two integers below 2^20 keeps its
    floor when it is rounded. *)
Lemma toDouble_floor (x : Q) (k : Z) :
  0 <= k < 1000000 ->
  (inject_Z k + (1 # 4) <= x)%Q ->
  (x <= inject_Z k + (3 # 4))%Q ->
  Qfloor (toDouble x) = k.
Proof.
  intros Hk Hlo Hhi.
  assert (Hk0 : (0 <= inject_Z k)%Q).
  { change 0%Q with (inject_Z 0). rewrite <- Zle_Qle. lia. }
  assert (Hk1 : (inject_Z k <= 999999 # 1)%Q).
  { change (999999 # 1)%Q with (inject_Z 999999). rewrite <- Zle_Qle. lia. }
  unfold toDouble. pose proof (Qred_correct x) as Hred.
  set (y := Qred x) in *.
  destruct (Qcompare_spec y 0) as [He|Hl|Hy]; [exfalso; lra|exfalso; lra|].
  pose proof (binade_le y Hy) as Hb.
  assert (Hb19 : binade y <= 19).
  { destruct (Z_lt_le_dec 19 (binade y)) as [Hbig|]; [|done]. exfalso.
    rewrite pow2_nonneg_exp in Hb by lia.
    assert (2 ^ 20 <= 2 ^ binade y) by (apply Z.pow_le_mono_r; lia).
    assert (inject_Z (2 ^ binade y) < inject_Z (2 ^ 20))%Q.
    { change (inject_Z (2 ^ 20)) with (1048576 # 1)%Q. lra. }
    rewrite <- Zlt_Qlt in *. lia. }
  unfold nearestDouble. set (e := Z.max (binade y) (-1022)).
  set (s := 52 - e). assert (Hs : 33 <= s) by lia.
  replace (e - 52) with (- s) by lia.
  rewrite pow2_opp, pow2_nonneg_exp by lia.
  set (P := 2 ^ s).
  assert (HP : 2 ^ 33 <= P) by (apply Z.pow_le_mono_r; lia).
  assert (HPQ : (8589934592 # 1 <= inject_Z P)%Q).
  { change (8589934592 # 1)%Q with (inject_Z (2 ^ 33)). by rewrite <- Zle_Qle. }
  set (q := (y * inject_Z P)%Q).
  assert (Hqlo : (inject_Z (k * P) <= q)%Q).
  { rewrite inject_Z_mult. unfold q. apply Qmult_le_compat_r; lra. }
  assert (Hqhi : (q < inject_Z ((k + 1) * P) - (1 # 2))%Q).
  { assert (Hq1 : (q <= (inject_Z k + (3 # 4)) * inject_Z P)%Q).
    { unfold q. apply Qmult_le_compat_r; lra. }
    rewrite inject_Z_mult, inject_Z_plus. change (inject_Z 1) with 1%Q.
    assert (Hexp : ((inject_Z k + (3 # 4)) * inject_Z P ==
                    inject_Z k * inject_Z P + (3 # 4) * inject_Z P)%Q) by ring.
    assert (Hexp' : ((inject_Z k + 1) * inject_Z P ==
                     inject_Z k * inject_Z P + inject_Z P)%Q) by ring.
    rewrite Hexp in Hq1. rewrite Hexp'.
    set (KP := (inject_Z k * inject_Z P)%Q) in *. lra. }
  pose proof (roundHalfEven_ge q _ Hqlo) as Hm0.
  pose proof (roundHalfEven_lt q _ Hqhi) as Hm1.
  set (m := roundHalfEven q) in *.
  assert (HPpos : (0 < inject_Z P)%Q) by lra.
  assert (Hr0 : (inject_Z k <= inject_Z m * / inject_Z P)%Q).
  { apply Qle_shift_div_l; [done|].
    rewrite <- inject_Z_mult, <- Zle_Qle. exact Hm0. }
  assert (Hr1 : (inject_Z m * / inject_Z P < inject_Z (k + 1))%Q).
  { apply Qlt_shift_div_r; [done|].
    rewrite <- inject_Z_mult, <- Zlt_Qlt. exact Hm1. }
  apply Z.le_antisymm.
  - apply Z.lt_succ_r. rewrite Zlt_Qlt.
    eapply Qle_lt_trans; [apply Qfloor_le|exact Hr1].
  - rewrite <- (Qfloor_Z k). by apply Qfloor_resp_le.
Qed.

(** A source of doubles of [0, 1) yields integers of [0, max), for every
    max up to 2^53. *)
Lemma getRandomInt_range (Math_random : nat -> Q) (max : Z) (n : nat) :
  (0 <= Math_random n)%Q ->
  (Math_random n <= 1 - (1 # 9007199254740992))%Q ->
  0 < max <= 9007199254740992 ->
  0 <= getRandomInt Math_random max n < max.
Proof.
  intros H0 H1 Hmax. unfold getRandomInt.
  assert (Hmx : (0 < inject_Z max)%Q).
  { change 0%Q with (inject_Z 0). rewrite <- Zlt_Qlt. lia. }
  set (x := (Math_random n * inject_Z max)%Q).
  assert (Hx0 : (0 <= x)%Q) by (apply Qmult_le_0_compat; lra).
  assert (Hx1 : (x <= inject_Z max * (1 - (1 # 9007199254740992)))%Q).
  { unfold x. rewrite (Qmult_comm (Math_random n)).
    apply Qmult_le_l; [done|lra]. }
  destruct (toDouble_below x max Hx0 Hx1) as [Hd0 Hd1].
  { change (2 ^ 53) with 9007199254740992. lia. }
  split.
  - change 0 with (Qfloor (inject_Z 0)). apply Qfloor_resp_le. exact Hd0.
  - rewrite Zlt_Qlt. eapply Qle_lt_trans; [apply Qfloor_le|exact Hd1].
Qed.

Lemma cycling_spec (n : nat) :
  let k := Z.of_nat n mod 1000000 in
  (0 <= Sample.cycling n)%Q
  /\ (Sample.cycling n <= 1 - (1 # 9007199254740992))%Q
  /\ (inject_Z k + (1 # 4) <= Sample.cycling n * inject_Z 1000000)%Q
  /\ (Sample.cycling n * inject_Z 1000000 <= inject_Z k + (3 # 4))%Q.
Proof.
  intros k. unfold Sample.cycling. fold k.
  assert (Hk : 0 <= k < 1000000) by (apply Z.mod_pos_bound; lia).
  set (a := (2 * k + 1) * 4503599627370496 + 999999).
  pose proof (Z.mul_div_le a 1000000 eq_refl) as H1.
  pose proof (Z.mul_succ_div_gt a 1000000 eq_refl) as H2.
  set (m := a / 1000000) in *. clearbody m. unfold a in *. clear a.
  change (1 - (1 # 9007199254740992))%Q
    with (9007199254740991 # 9007199254740992)%Q.
  unfold Qle, Qplus, Qmult, inject_Z. cbn [Qnum Qden].
  rewrite ?Pos.mul_1_r, ?Pos.mul_1_l.
  repeat split; lia.
Qed.

Lemma getRandomInt_cycling (n : nat) :
  getRandomInt Sample.cycling 1000000 n = Z.of_nat n mod 1000000.
Proof.
  unfold getRandomInt.
  destruct (cycling_spec n) as (_ & _ & Hlo & Hhi).
  apply toDouble_floor; [|done|done].
  apply Z.mod_pos_bound. lia.
Qed.

Lemma cycling_fair : FairDraws Sample.cycling.
Proof.
  intros start k Hk.
  exists (Z.to_nat (k + 1000000 * Z.of_nat start)). split; [lia|].
  rewrite getRandomInt_cycling, Z2Nat.id by lia.
  rewrite Z.mul_comm, Z.mod_add by lia. apply Z.mod_small. lia.
Qed.

(** The loop ends because the source keeps drawing: with a source stuck on
    a value that is taken it is still running, whatever the fuel. *)
Lemma stuck_never_returns (fuel : nat) :
  freshHandlerId Sample.stuck fuel
    (signEventRequestHandlers Sample.oneTaken) 0 = None.
Proof.
  unfold freshHandlerId.
  change (getRandomInt Sample.stuck 1000000 0) with 0.
  generalize 1%nat. induction fuel as [|fuel IH]; intros calls.
  - reflexivity.
  - change (whileInUse Sample.stuck (S fuel)
              (signEventRequestHandlers Sample.oneTaken) calls 0)
      with (whileInUse Sample.stuck fuel
              (signEventRequestHandlers Sample.oneTaken) (S calls) 0).
    apply IH.
Qed.

(* ===================================================================== *)
(** * The claims on registration, at concrete stores *)
(* ===================================================================== *)

(** The first conjunct of the goal, an equation between closed terms, by
    evaluation. *)
Ltac evaluated H :=
  match goal with
  | |- (?L = ?R) /\ _ =>
      assert (H : L = R) by (vm_compute; reflexivity); split; [exact H|]
  end.

Lemma registered_identities_distinct_witness :
  let rs := [IntoSignEvent Sample.declines; IntoPayInvoice Sample.pays;
             IntoSignEvent Sample.approves] in
  exists st',
    registerEach Sample.cycling 5 rs Sample.oneTaken = Some ([1; 3], [2], st')
    /\ NoDup [1; 3] /\ NoDup [2]
    /\ size (signEventRequestHandlers st') = 3%nat
    /\ size (payInvoiceRequestHandlers st') = 1%nat.
Proof.
  intros rs.
  let v := eval vm_compute in
             (registerEach Sample.cycling 5 rs Sample.oneTaken) in
  lazymatch v with Some (_, _, ?s) => exists s end.
  evaluated Hreg.
  pose proof (registered_identities_distinct Sample.cycling 5 rs
                Sample.oneTaken [1; 3] [2] _ Hreg)
    as (H1 & H2 & _ & _ & _ & H3 & H4 & _).
  split; [exact H1|]. split; [exact H2|]. split; [exact H3|exact H4].
Defined.

Lemma unregister_idempotent_witness :
  exists unregister st1,
    handleSignEventRequests Sample.cycling 5 Sample.declines Sample.oneTaken =
      Some (unregister, st1)
    /\ exists k,
         signEventRequestHandlers st1 !! k = Some Sample.declines
         /\ signEventRequestHandlers (unregister st1) !! k = None
         /\ (forall st2,
               signEventRequestHandlers (unregister st2) =
                 delete k (signEventRequestHandlers st2)
               /\ payInvoiceRequestHandlers (unregister st2) =
                    payInvoiceRequestHandlers st2)
         /\ (forall st2, unregister (unregister st2) = unregister st2)
         /\ (forall st2, signEventRequestHandlers st2 !! k = None ->
                         unregister st2 = st2).
Proof.
  let v := eval vm_compute in
             (handleSignEventRequests_body Sample.cycling 5 Sample.declines
                Sample.oneTaken) in
  lazymatch v with
  | Some (?k, ?s) => exists (unregisterSignEvent k), s
  end.
  evaluated Hreg.
  exact (proj1 (unregister_idempotent Sample.cycling 5 Sample.declines
                  Sample.pays Sample.oneTaken _ _) Hreg).
Defined.

Lemma identity_allocation_terminates_witness :
  FairDraws Sample.cycling
  /\ Z.of_nat (size (signEventRequestHandlers Sample.oneTaken)) < 1000000
  /\ (exists fuel k st',
        handleSignEventRequests_body Sample.cycling fuel Sample.declines
          Sample.oneTaken = Some (k, st')
        /\ signEventRequestHandlers Sample.oneTaken !! k = None
        /\ signEventRequestHandlers st' !! k = Some Sample.declines)
  /\ Z.of_nat (size (payInvoiceRequestHandlers Sample.oneTaken)) < 1000000
  /\ (exists fuel k st',
        handlePayInvoiceRequests_body Sample.cycling fuel Sample.pays
          Sample.oneTaken = Some (k, st')
        /\ payInvoiceRequestHandlers Sample.oneTaken !! k = None
        /\ payInvoiceRequestHandlers st' !! k = Some Sample.pays).
Proof.
  assert (Hs : Z.of_nat (size (signEventRequestHandlers Sample.oneTaken))
               < 1000000) by (vm_compute; reflexivity).
  assert (Hp : Z.of_nat (size (payInvoiceRequestHandlers Sample.oneTaken))
               < 1000000) by (vm_compute; reflexivity).
  pose proof (identity_allocation_terminates Sample.cycling Sample.declines
                Sample.pays Sample.oneTaken cycling_fair) as [Ts Tp].
  split; [exact cycling_fair|]. split; [exact Hs|]. split; [exact (Ts Hs)|].
  split; [exact Hp|exact (Tp Hp)].
Defined.

Lemma same_handler_registered_twice_witness :
  let event := (Sample.event, "pk"%string) in
  let h := Sample.secondThoughts Sample.event "pk" in
  exists unregister1 st1 unregister2 st2,
    handleSignEventRequests Sample.cycling 5 Sample.secondThoughts
      Sample.hesitant = Some (unregister1, st1)
    /\ handleSignEventRequests Sample.cycling 5 Sample.secondThoughts st1 =
         Some (unregister2, st2)
    /\ signPolls st2 event = [(0, h)] ++ (1, h) :: [(3, h); (8, h); (11, h)]
    /\ AllDecline [(0, h)] 0%nat 1%nat
    /\ h 1%nat = (Fulfilled true, 2%nat)
    /\ sign_event_request_listener st2 event 0%nat =
         {| effects := [Called 0; Called 1;
                        respond_to_sign_event_request "e1" true];
            completion := Resolved; world := 2%nat |}
    /\ signEventRequestHandlers st2 !! 0 = Some Sample.secondThoughts
    /\ signEventRequestHandlers st2 !! 1 = Some Sample.secondThoughts
    /\ signEventRequestHandlers (unregister1 st2) !! 0 = None
    /\ signEventRequestHandlers (unregister1 st2) !! 1 =
         Some Sample.secondThoughts.
Proof.
  intros event h.
  let v1 := eval vm_compute in
              (handleSignEventRequests_body Sample.cycling 5
                 Sample.secondThoughts Sample.hesitant) in
  lazymatch v1 with
  | Some (?k1, ?s1) =>
      let v2 := eval vm_compute in
                  (handleSignEventRequests_body Sample.cycling 5
                     Sample.secondThoughts s1) in
      lazymatch v2 with
      | Some (?k2, ?s2) =>
          exists (unregisterSignEvent k1), s1, (unregisterSignEvent k2), s2
      end
  end.
  evaluated Hreg1. evaluated Hreg2.
  destruct (proj1 (same_handler_registered_twice Sample.cycling 5 5
                     Sample.secondThoughts (fun _ n => (Rejected, n))
                     Sample.hesitant _ _ _ _) Hreg1 Hreg2)
    as (k1 & k2 & Hb1 & Hb2 & Hne & H1 & H2 & _ & Hrun & H3 & H4 & _ & H5).
  assert (k1 = 0) as -> by (vm_compute in Hb1; congruence).
  assert (k2 = 1) as -> by (vm_compute in Hb2; congruence).
  match goal with |- signPolls ?s _ = _ /\ _ => set (st2 := s) in * end.
  assert (Hsnap : signPolls st2 event =
                    [(0, h)] ++ (1, h) :: [(3, h); (8, h); (11, h)])
    by (vm_compute; reflexivity).
  assert (Hpre : AllDecline [(0, h)] 0%nat 1%nat).
  { eapply AllDecline_cons; [reflexivity|]. apply AllDecline_nil. }
  destruct (Hrun event 0%nat) as (_ & _ & _ & _ & _ & _ & Hshort).
  destruct (Hshort _ _ _ _ _ _ Hsnap Hpre eq_refl) as (Heq & _ & _).
  split; [exact Hsnap|]. split; [exact Hpre|]. split; [reflexivity|].
  split; [exact Heq|]. split; [exact H1|]. split; [exact H2|].
  split; [exact H3|exact H4].
Defined.

(* ===================================================================== *)
(** * The login page *)
(* ===================================================================== *)

Section LoginPageClaims.

Import LoginPage.

Variable nip19_decode : string -> Try DecodeResult.
Variable set_nsec_resolves : string -> bool.

Lemma isValidNsec_cases (s : string) :
  isValidNsec nip19_decode s =
    Returned match nip19_decode s with
             | Returned r => bool_decide (type r = "nsec")
             | Threw => false
             end.
Proof. unfold isValidNsec. by destruct (nip19_decode s). Qed.

(** C10. [isValidNsec] returns a boolean on every string and never throws:
    true exactly when [nip19.decode] returns and reports the type "nsec",
    false otherwise, in particular when [nip19.decode] throws.  Hence a
    submission of the form calls [setNsec] only with a string on which
    [isValidNsec] returned true. *)
Theorem isValidNsec_guards_setNsec :
  (forall s, exists b, isValidNsec nip19_decode s = Returned b)
  /\ (forall s, isValidNsec nip19_decode s = Returned true <->
                exists r, nip19_decode s = Returned r /\ type r = "nsec")
  /\ (forall s, isValidNsec nip19_decode s <> Returned true ->
                isValidNsec nip19_decode s = Returned false)
  /\ (forall s, nip19_decode s = Threw ->
                isValidNsec nip19_decode s = Returned false)
  /\ (forall values s,
        In (setNsec s)
           (handleSubmit nip19_decode set_nsec_resolves values).1 ->
        isValidNsec nip19_decode s = Returned true).
Proof.
  split; [|split; [|split; [|split]]].
  - intros s. rewrite isValidNsec_cases. eauto.
  - intros s. rewrite isValidNsec_cases. split.
    + destruct (nip19_decode s) as [r|]; [|done].
      intros [= Hb]. apply bool_decide_eq_true in Hb. eauto.
    + intros (r & -> & Ht). by rewrite bool_decide_eq_true_2.
  - intros s. rewrite isValidNsec_cases.
    destruct (nip19_decode s) as [r|]; [|done].
    by destruct (bool_decide (type r = "nsec")).
  - intros s Hs. by rewrite isValidNsec_cases, Hs.
  - intros values s. unfold handleSubmit, formSchema.
    destruct (isValidNsec nip19_decode (nsec values)) as [[]|] eqn:Hv;
      simpl; [|intros [[=]|[]]|intros []].
    unfold onSubmit. destruct (set_nsec_resolves (nsec values)); simpl.
    + intros [[=]|[[= <-]|[[=]|[[=]|[]]]]]. exact Hv.
    + intros [[=]|[[= <-]|[[=]|[]]]]. exact Hv.
Qed.

End LoginPageClaims.

Lemma isValidNsec_guards_setNsec_witness :
  LoginPage.isValidNsec Sample.validOnly "nsec1ok" = LoginPage.Returned true
  /\ LoginPage.isValidNsec Sample.validOnly "npub1ok" = LoginPage.Returned false
  /\ Sample.validOnly "garbage" = LoginPage.Threw
  /\ LoginPage.isValidNsec Sample.validOnly "garbage" = LoginPage.Returned false
  /\ In (LoginPage.setNsec "nsec1ok")
        (LoginPage.handleSubmit Sample.validOnly (fun _ => true)
           {| LoginPage.nsec := "nsec1ok" |}).1
  /\ (LoginPage.handleSubmit Sample.validOnly (fun _ => true)
        {| LoginPage.nsec := "garbage" |}).1 =
       [LoginPage.FormMessage "Invalid nsec."].
Proof.
  pose proof (isValidNsec_guards_setNsec Sample.validOnly (fun _ => true))
    as (_ & Hiff & Hnot & Hthrew & Hguard).
  assert (Hin : In (LoginPage.setNsec "nsec1ok")
                  (LoginPage.handleSubmit Sample.validOnly (fun _ => true)
                     {| LoginPage.nsec := "nsec1ok" |}).1).
  { vm_compute. right. left. reflexivity. }
  split; [exact (Hguard _ _ Hin)|].
  split; [apply Hnot; vm_compute; discriminate|].
  split; [reflexivity|].
  split; [exact (Hthrew "garbage" eq_refl)|].
  split; [exact Hin|reflexivity].
Defined.

(* ===================================================================== *)
(** * Further properties of the dispatch *)
(* ===================================================================== *)

Section DispatchShape.

Context {Env : Type}.
Implicit Types (snapshot pre post : list (Z * Poll Env)) (env : Env).
Implicit Types (st : Store Env).

(** The loop either runs through a snapshot that declines throughout, or
    it stops at the first handler that does not decline. *)
Lemma pollHandlers_cases snapshot env :
  (exists env',
      AllDecline snapshot env env'
      /\ pollHandlers snapshot false env = (snapshot.*1, Finished false, env'))
  \/
  (exists pre k (p : Poll Env) post env1 env2 s,
      snapshot = pre ++ (k, p) :: post
      /\ AllDecline pre env env1
      /\ p env1 = (s, env2)
      /\ s <> Fulfilled false
      /\ pollHandlers snapshot false env = (pre.*1 ++ [k], leaves s, env2)).
Proof.
  revert env. induction snapshot as [|[k p] rest IH]; intros env.
  - left. exists env. split; [constructor|done].
  - destruct (p env) as [s env1] eqn:Hp.
    assert (s = Fulfilled false \/ s <> Fulfilled false) as [->|Hs]
      by (destruct s as [[]| |]; auto; right; discriminate).
    + destruct (IH env1) as [(env' & Hall & Heq)
                            |(pre & k' & p' & post & e1 & e2 & s' &
                              -> & Hall & Hp' & Hs' & Heq)].
      * left. exists env'. split; [by econstructor|].
        simpl. by rewrite Hp, Heq.
      * right. exists ((k, p) :: pre), k', p', post, e1, e2, s'.
        split; [done|]. split; [by econstructor|].
        split; [done|]. split; [done|].
        simpl. by rewrite Hp, Heq.
    + right. exists [], k, p, rest, env, env1, s.
      split; [done|]. split; [constructor|]. split; [done|]. split; [done|].
      simpl. rewrite Hp. by destruct s as [[]| |].
Qed.

End DispatchShape.

Section EnumerationOrder.

Context {A : Type}.
Implicit Types (o : gmap Z A) (k : Z) (a : A) (l : list (Z * A)).

Lemma Object_entries_ascending o : StronglySorted keyLt (Object_entries o).
Proof.
  assert (Hs : StronglySorted keyLe (Object_entries o)).
  { apply Sorted_StronglySorted.
    - intros x y z. unfold keyLe. lia.
    - apply Sorted_merge_sort. intros x y. unfold keyLe. lia. }
  pose proof (Object_keys_NoDup o) as Hnd. unfold Object_keys in Hnd.
  induction Hs as [|x l _ IH Hall]; [constructor|].
  rewrite fmap_cons in Hnd. apply NoDup_cons in Hnd as [Hx Hnd].
  constructor; [by apply IH|].
  rewrite Forall_forall in Hall |- *. intros y Hy.
  specialize (Hall y Hy). unfold keyLe, keyLt in *.
  assert (x.1 <> y.1).
  { intros Heq. apply Hx. rewrite Heq. by apply list_elem_of_fmap_2. }
  lia.
Qed.

Lemma Object_keys_ascending o : StronglySorted Z.lt (Object_keys o).
Proof.
  unfold Object_keys.
  apply (StronglySorted_fmap fst keyLt Z.lt); [done|].
  apply Object_entries_ascending.
Qed.

(** The enumeration is the one list of the entries that ascends by key. *)
Lemma Object_entries_unique o l :
  StronglySorted keyLt l -> l ≡ₚ map_to_list o -> l = Object_entries o.
Proof.
  intros Hl Hperm.
  apply (StronglySorted_unique_strong keyLt); [|done| |].
  - intros x y _ _. unfold keyLt. lia.
  - apply Object_entries_ascending.
  - by rewrite Hperm, Object_entries_perm.
Qed.

Lemma StronglySorted_keyLt_filter (P : Z * A -> Prop)
    `{!forall x, Decision (P x)} l :
  StronglySorted keyLt l -> StronglySorted keyLt (filter P l).
Proof.
  induction 1 as [|x l _ IH Hall]; [constructor|].
  rewrite filter_cons. destruct (decide (P x)); [|done].
  constructor; [done|].
  rewrite Forall_forall in Hall |- *. intros y Hy.
  apply list_elem_of_filter in Hy as [_ Hy]. by apply Hall.
Qed.

(** Deleting a key takes its entry out of the enumeration and leaves the
    others where they are. *)
Lemma Object_entries_delete o k :
  Object_entries (delete k o) =
    filter (fun x : Z * A => x.1 <> k) (Object_entries o).
Proof.
  symmetry. apply Object_entries_unique.
  - apply StronglySorted_keyLt_filter, Object_entries_ascending.
  - apply NoDup_Permutation.
    + apply NoDup_filter. rewrite Object_entries_perm.
      apply NoDup_map_to_list.
    + apply NoDup_map_to_list.
    + intros [k' a]. rewrite list_elem_of_filter, elem_of_Object_entries.
      rewrite elem_of_map_to_list, lookup_delete_Some. simpl.
      split; intros [? ?]; split; congruence.
Qed.

Lemma StronglySorted_keyLt_NoDup l : StronglySorted keyLt l -> NoDup l.
Proof.
  induction 1 as [|x l _ IH Hall]; constructor; [|done].
  intros Hin. rewrite Forall_forall in Hall.
  specialize (Hall x Hin). unfold keyLt in Hall. lia.
Qed.

Lemma below_above_ascending o k a :
  StronglySorted keyLt
    (filter (fun x : Z * A => x.1 < k) (Object_entries o)
       ++ (k, a) :: filter (fun x : Z * A => k < x.1) (Object_entries o)).
Proof.
  pose proof (Object_entries_ascending o) as Hs.
  apply StronglySorted_app_2.
  - intros x y [Hx _]%list_elem_of_filter Hy. unfold keyLt.
    apply elem_of_cons in Hy as [->|[Hy _]%list_elem_of_filter]; simpl; lia.
  - by apply StronglySorted_keyLt_filter.
  - constructor; [by apply StronglySorted_keyLt_filter|].
    rewrite Forall_forall. by intros y [Hy _]%list_elem_of_filter.
Qed.

(** A new key puts its entry between the entries with smaller and those
    with larger keys, which stay as they are. *)
Lemma Object_entries_insert o k a :
  o !! k = None ->
  Object_entries o =
    filter (fun x : Z * A => x.1 < k) (Object_entries o)
      ++ filter (fun x : Z * A => k < x.1) (Object_entries o)
  /\ Object_entries (<[k := a]> o) =
       filter (fun x : Z * A => x.1 < k) (Object_entries o)
         ++ (k, a) :: filter (fun x : Z * A => k < x.1) (Object_entries o).
Proof.
  intros Hfree. pose proof (below_above_ascending o k a) as Hs. split.
  - symmetry. apply Object_entries_unique.
    + apply StronglySorted_app in Hs as (Hcross & Hb & Ha).
      apply StronglySorted_app_2; [|done|by inv Ha].
      intros x y Hx Hy. apply Hcross; [done|by right].
    + apply NoDup_Permutation.
      * apply StronglySorted_keyLt_NoDup in Hs.
        apply NoDup_app in Hs as (Hb & Hd & Ha).
        apply NoDup_cons in Ha as [_ Ha].
        apply NoDup_app. split; [done|]. split; [|done].
        intros x Hx Hx'. apply (Hd x Hx). by right.
      * apply NoDup_map_to_list.
      * intros [k' a']. rewrite elem_of_app, !list_elem_of_filter.
        rewrite elem_of_Object_entries, elem_of_map_to_list. simpl.
        split; [tauto|]. intros Hk'.
        assert (k' <> k) by congruence.
        destruct (decide (k' < k)); [left|right]; split; try done; lia.
  - symmetry. apply Object_entries_unique; [done|].
    apply NoDup_Permutation.
    + by apply StronglySorted_keyLt_NoDup.
    + apply NoDup_map_to_list.
    + intros [k' a']. rewrite elem_of_app, elem_of_cons.
      rewrite !list_elem_of_filter, elem_of_Object_entries.
      rewrite elem_of_map_to_list, lookup_insert_Some. simpl. split.
      * intros [[Hlt Ho]|[[= -> ->]|[Hlt Ho]]]; [right|left|right];
          try done; split; try done; lia.
      * intros [[-> ->]|[Hne Ho]]; [right; by left|].
        destruct (decide (k' < k)); [left|right; right];
          split; try done; lia.
Qed.

End EnumerationOrder.

Section DispatchFurther.

Context {Env : Type}.
Implicit Types (snapshot pre post : list (Z * Poll Env)) (env : Env).
Implicit Types (st : Store Env) (respond : bool -> Effect).

Lemma pending_ends_loop pre post env env1 env2 (k : Z) (p : Poll Env) :
  AllDecline pre env env1 ->
  p env1 = (Pending, env2) ->
  pollHandlers (pre ++ (k, p) :: post) false env =
    (pre.*1 ++ [k], Awaiting, env2).
Proof.
  intros Hpre Hp. rewrite (pollHandlers_after_declines _ _ _ _ Hpre).
  simpl. by rewrite Hp.
Qed.

(** The effects of a callback are the calls of handlers, followed by what
    it responds. *)
Lemma afterLoop_effects respond (r : list Z * LoopExit * Env) :
  (forall b, isResponse (respond b) = true) ->
  effects (afterLoop respond r) =
    (Called <$> calledIds (effects (afterLoop respond r)))
      ++ responses (effects (afterLoop respond r)).
Proof.
  intros Hr. rewrite afterLoop_calledIds, afterLoop_responses by done.
  destruct r as [[called exit] env]. destruct exit; simpl;
    by rewrite ?app_nil_r.
Qed.

Lemma afterLoop_Resolved respond (r : list Z * LoopExit * Env) :
  (forall b, isResponse (respond b) = true) ->
  completion (afterLoop respond r) = Resolved <->
  responses (effects (afterLoop respond r)) <> [].
Proof.
  intros Hr. rewrite afterLoop_responses by done.
  destruct r as [[called exit] env]. destruct exit; simpl; split; done.
Qed.

(** The verdict of a loop, read backwards: what the response says about
    the handlers. *)
Lemma afterLoop_approved respond snapshot env :
  (forall b, isResponse (respond b) = true) ->
  respond true <> respond false ->
  (responses (effects (afterLoop respond (pollHandlers snapshot false env))) =
     [respond true] <->
   exists pre k (p : Poll Env) post env1 env2,
     snapshot = pre ++ (k, p) :: post
     /\ AllDecline pre env env1
     /\ p env1 = (Fulfilled true, env2))
  /\
  (responses (effects (afterLoop respond (pollHandlers snapshot false env))) =
     [respond false] <->
   exists env', AllDecline snapshot env env').
Proof.
  intros Hr Hne. rewrite afterLoop_responses by done. split; split.
  - destruct (pollHandlers_cases snapshot env)
      as [(env' & _ & ->)
         |(pre & k & p & post & e1 & e2 & s & -> & Hall & Hp & Hs & ->)];
      simpl.
    + intros [= Habs]. by destruct Hne.
    + destruct s as [[]| |]; simpl; try done. intros _. eauto 10.
  - intros (pre & k & p & post & e1 & e2 & -> & Hall & Hp).
    by rewrite (approval_ends_loop _ _ _ _ _ _ _ Hall Hp).
  - destruct (pollHandlers_cases snapshot env)
      as [(env' & Hall & ->)
         |(pre & k & p & post & e1 & e2 & s & -> & Hall & Hp & Hs & ->)];
      simpl.
    + eauto.
    + destruct s as [[]| |]; simpl; try done.
      intros [= Habs]. by destruct Hne.
  - intros (env' & Hall). by rewrite (pollHandlers_AllDecline _ _ _ Hall).
Qed.

Lemma afterLoop_ascending respond snapshot env :
  (forall b, isResponse (respond b) = true) ->
  StronglySorted Z.lt snapshot.*1 ->
  StronglySorted Z.lt
    (calledIds (effects (afterLoop respond (pollHandlers snapshot false env)))).
Proof.
  intros Hr Hs. rewrite afterLoop_calledIds by done.
  destruct (pollHandlers_prefix snapshot false env) as [rest Hrest].
  rewrite Hrest in Hs. by apply StronglySorted_app_1_l in Hs.
Qed.

End DispatchFurther.

Section DispatchProperties.

Context {Env : Type}.
Implicit Types (pre post : list (Z * Poll Env)) (env : Env) (st : Store Env).

(** X9. A handler whose promise never settles stalls the dispatch it is
    polled in: the handlers before it were called, it was called, no handler
    behind it is called, no response is emitted and the callback never
    finishes.  This holds for both callbacks. *)
Theorem pending_stalls_dispatch st (event : UnsignedNostrEvent * string)
    (invoice : string) env pre post (k : Z) (p : Poll Env) env1 env2 :
  AllDecline pre env env1 ->
  p env1 = (Pending, env2) ->
  (signPolls st event = pre ++ (k, p) :: post ->
   let run := sign_event_request_listener st event env in
   effects run = Called <$> (pre.*1 ++ [k])
   /\ responses (effects run) = []
   /\ completion run = NeverSettles
   /\ forall k', k' ∈ post.*1 -> timesCalled k' (effects run) = 0%nat)
  /\
  (payPolls st invoice = pre ++ (k, p) :: post ->
   let run := pay_invoice_request_listener st invoice env in
   effects run = Called <$> (pre.*1 ++ [k])
   /\ responses (effects run) = []
   /\ completion run = NeverSettles
   /\ forall k', k' ∈ post.*1 -> timesCalled k' (effects run) = 0%nat).
Proof.
  intros Hpre Hp. split; intros Hsnap run.
  - assert (Hrun : run = {| effects := Called <$> (pre.*1 ++ [k]);
                            completion := NeverSettles; world := env2 |}).
    { unfold run, sign_event_request_listener.
      by rewrite Hsnap, (pending_ends_loop _ _ _ _ _ _ _ Hpre Hp). }
    rewrite Hrun. simpl. repeat split.
    + apply responses_Called.
    + intros k' Hk'. unfold timesCalled. rewrite calledIds_Called.
      apply (later_not_called pre post k k' p); [|done].
      rewrite <- Hsnap, signPolls_keys. apply Object_keys_NoDup.
  - assert (Hrun : run = {| effects := Called <$> (pre.*1 ++ [k]);
                            completion := NeverSettles; world := env2 |}).
    { unfold run, pay_invoice_request_listener.
      by rewrite Hsnap, (pending_ends_loop _ _ _ _ _ _ _ Hpre Hp). }
    rewrite Hrun. simpl. repeat split.
    + apply responses_Called.
    + intros k' Hk'. unfold timesCalled. rewrite calledIds_Called.
      apply (later_not_called pre post k k' p); [|done].
      rewrite <- Hsnap, payPolls_keys. apply Object_keys_NoDup.
Qed.

(** X10. Whatever the handlers do (answer, throw, never settle), a callback
    emits at most one response, after all the calls of handlers it makes;
    the response of the sign-event callback is a respond-to-sign-event with
    the id of the event, that of the pay-invoice callback a
    respond-to-pay-invoice with the invoice; and the callback finishes
    normally exactly when it has responded. *)
Theorem at_most_one_response st (event : UnsignedNostrEvent * string)
    (invoice : string) env :
  (let run := sign_event_request_listener st event env in
   effects run = (Called <$> calledIds (effects run)) ++ responses (effects run)
   /\ (responses (effects run) = []
       \/ exists approved,
            responses (effects run) =
              [respond_to_sign_event_request (Types.id event.1) approved])
   /\ (completion run = Resolved <-> responses (effects run) <> []))
  /\
  (let run := pay_invoice_request_listener st invoice env in
   effects run = (Called <$> calledIds (effects run)) ++ responses (effects run)
   /\ (responses (effects run) = []
       \/ exists approved,
            responses (effects run) =
              [respond_to_pay_invoice_request invoice approved])
   /\ (completion run = Resolved <-> responses (effects run) <> [])).
Proof.
  split; intros run.
  - split; [by apply afterLoop_effects|]. split; [|by apply afterLoop_Resolved].
    unfold run, sign_event_request_listener.
    rewrite afterLoop_responses by done.
    destruct (pollHandlers _ _ _) as [[called []] env']; simpl; eauto.
  - split; [by apply afterLoop_effects|]. split; [|by apply afterLoop_Resolved].
    unfold run, pay_invoice_request_listener.
    rewrite afterLoop_responses by done.
    destruct (pollHandlers _ _ _) as [[called []] env']; simpl; eauto.
Qed.

(** X11. What a response says about the handlers.  A callback responds
    approved = true exactly when, polled in snapshot order, the handlers
    decline up to one that answers true; it responds approved = false
    exactly when every handler of the snapshot declines.  So no request is
    approved without a registered handler having answered true. *)
Theorem verdict_characterised st (event : UnsignedNostrEvent * string)
    (invoice : string) env :
  (responses (effects (sign_event_request_listener st event env)) =
     [respond_to_sign_event_request (Types.id event.1) true] <->
   exists pre k (p : Poll Env) post env1 env2,
     signPolls st event = pre ++ (k, p) :: post
     /\ AllDecline pre env env1
     /\ p env1 = (Fulfilled true, env2))
  /\
  (responses (effects (sign_event_request_listener st event env)) =
     [respond_to_sign_event_request (Types.id event.1) false] <->
   exists env', AllDecline (signPolls st event) env env')
  /\
  (responses (effects (pay_invoice_request_listener st invoice env)) =
     [respond_to_pay_invoice_request invoice true] <->
   exists pre k (p : Poll Env) post env1 env2,
     payPolls st invoice = pre ++ (k, p) :: post
     /\ AllDecline pre env env1
     /\ p env1 = (Fulfilled true, env2))
  /\
  (responses (effects (pay_invoice_request_listener st invoice env)) =
     [respond_to_pay_invoice_request invoice false] <->
   exists env', AllDecline (payPolls st invoice) env env').
Proof.
  pose proof (afterLoop_approved
                (respond_to_sign_event_request (Types.id event.1))
                (signPolls st event) env (fun _ => eq_refl)) as [Hs1 Hs2];
    [discriminate|].
  pose proof (afterLoop_approved
                (respond_to_pay_invoice_request invoice)
                (payPolls st invoice) env (fun _ => eq_refl)) as [Hp1 Hp2];
    [discriminate|].
  done.
Qed.

(** X12. The handlers of a dispatch are called in strictly ascending order
    of their identities, starting with the smallest identity registered:
    the identities called are the first few of the keys of the registry in
    ascending order.  As identities are drawn at random, so is the rank of
    a handler. *)
Theorem handlers_polled_in_ascending_order st
    (event : UnsignedNostrEvent * string) (invoice : string) env :
  (let run := sign_event_request_listener st event env in
   StronglySorted Z.lt (calledIds (effects run))
   /\ StronglySorted Z.lt (Object_keys (signEventRequestHandlers st))
   /\ calledIds (effects run)
        `prefix_of` Object_keys (signEventRequestHandlers st))
  /\
  (let run := pay_invoice_request_listener st invoice env in
   StronglySorted Z.lt (calledIds (effects run))
   /\ StronglySorted Z.lt (Object_keys (payInvoiceRequestHandlers st))
   /\ calledIds (effects run)
        `prefix_of` Object_keys (payInvoiceRequestHandlers st)).
Proof.
  split; intros run.
  - split; [|split].
    + apply afterLoop_ascending; [done|].
      rewrite signPolls_keys. apply Object_keys_ascending.
    + apply Object_keys_ascending.
    + unfold run, sign_event_request_listener.
      rewrite afterLoop_calledIds by done.
      rewrite <- (signPolls_keys st event). apply pollHandlers_prefix.
  - split; [|split].
    + apply afterLoop_ascending; [done|].
      rewrite payPolls_keys. apply Object_keys_ascending.
    + apply Object_keys_ascending.
    + unfold run, pay_invoice_request_listener.
      rewrite afterLoop_calledIds by done.
      rewrite <- (payPolls_keys st invoice). apply pollHandlers_prefix.
Qed.

End DispatchProperties.

(* ===================================================================== *)
(** * Further properties of the registries *)
(* ===================================================================== *)

Section AllocationFurther.

Variable Math_random : nat -> Q.
Context {A : Type}.
Implicit Types (registry : gmap Z A) (k : Z).

(** What the loop returns is the candidate it was entered with, or the
    first free value drawn after entering. *)
Lemma whileInUse_first_free fuel registry calls k0 k calls' :
  whileInUse Math_random fuel registry calls k0 = Some (k, calls') ->
  (k = k0 /\ calls' = calls)
  \/ (is_Some (registry !! k0)
      /\ exists n,
           calls' = S n /\ (calls <= n)%nat
           /\ k = getRandomInt Math_random 1000000 n
           /\ forall i, (calls <= i < n)%nat ->
                is_Some (registry !! getRandomInt Math_random 1000000 i)).
Proof.
  revert calls k0.
  induction fuel as [|fuel IH]; intros calls k0; simpl;
    destruct (registry !! k0) eqn:Hk0; intros Heq; simplify_eq; auto.
  right. split; [eauto|].
  apply IH in Heq as [[-> ->]|[Htaken (n & -> & Hn & -> & Hall)]].
  - exists calls. repeat split; try done. intros i Hi. lia.
  - exists n. repeat split; try done; [lia|].
    intros i Hi. destruct (decide (i = calls)) as [->|Hne]; [done|].
    apply Hall. lia.
Qed.

Lemma freshHandlerId_first_free fuel registry calls k calls' :
  freshHandlerId Math_random fuel registry calls = Some (k, calls') ->
  exists n,
    calls' = S n /\ (calls <= n)%nat
    /\ k = getRandomInt Math_random 1000000 n
    /\ registry !! k = None
    /\ forall i, (calls <= i < n)%nat ->
         is_Some (registry !! getRandomInt Math_random 1000000 i).
Proof.
  intros Heq. pose proof (freshHandlerId_free _ _ _ _ _ _ Heq) as Hfree.
  apply whileInUse_first_free in Heq
    as [[-> ->]|[Htaken (n & -> & Hn & -> & Hall)]].
  - exists calls. repeat split; try done. intros i Hi. lia.
  - exists n. repeat split; try done; [lia|].
    intros i Hi. destruct (decide (i = calls)) as [->|Hne]; [done|].
    apply Hall. lia.
Qed.

Lemma freshHandlerId_in_range fuel registry calls k calls' :
  InUnitInterval Math_random ->
  freshHandlerId Math_random fuel registry calls = Some (k, calls') ->
  0 <= k < 1000000.
Proof.
  intros Hunit (n & _ & _ & -> & _)%freshHandlerId_first_free.
  destruct (Hunit n). apply getRandomInt_range; [done|done|lia].
Qed.

(** With every identity taken the loop has no way out. *)
Lemma whileInUse_full fuel registry calls k0 :
  InUnitInterval Math_random ->
  (forall k, 0 <= k < 1000000 -> is_Some (registry !! k)) ->
  0 <= k0 < 1000000 ->
  whileInUse Math_random fuel registry calls k0 = None.
Proof.
  intros Hunit Hfull. revert calls k0.
  induction fuel as [|fuel IH]; intros calls k0 Hk0; simpl;
    destruct (Hfull k0 Hk0) as [a ->]; [done|].
  apply IH. destruct (Hunit calls). apply getRandomInt_range; [done|done|lia].
Qed.

Lemma freshHandlerId_full fuel registry calls :
  InUnitInterval Math_random ->
  (forall k, 0 <= k < 1000000 -> is_Some (registry !! k)) ->
  freshHandlerId Math_random fuel registry calls = None.
Proof.
  intros Hunit Hfull. apply whileInUse_full; try done.
  destruct (Hunit calls). apply getRandomInt_range; [done|done|lia].
Qed.

(** A registry whose keys lie in the identity space has at most 1,000,000
    entries. *)
Lemma KeysInRange_size registry :
  KeysInRange registry -> Z.of_nat (size registry) <= 1000000.
Proof.
  intros Hrange.
  assert (Hsub : dom registry
                 ⊆ list_to_set (C := gset Z) (seqZ 0 1000000)).
  { intros k Hk%elem_of_dom. apply elem_of_list_to_set, elem_of_seqZ.
    specialize (Hrange k Hk). lia. }
  apply subseteq_size in Hsub.
  rewrite size_dom, size_list_to_set in Hsub by apply NoDup_seqZ.
  rewrite length_seqZ in Hsub. lia.
Qed.

Lemma KeysInRange_insert registry k (a : A) :
  0 <= k < 1000000 -> KeysInRange registry -> KeysInRange (<[k := a]> registry).
Proof.
  intros Hk Hrange k' [a' Hk']. apply lookup_insert_Some in Hk' as [[<- _]|[_ ?]];
    [done|]. apply Hrange. eauto.
Qed.

Lemma KeysInRange_delete registry k :
  KeysInRange registry -> KeysInRange (delete k registry).
Proof.
  intros Hrange k' [a' Hk']. apply lookup_delete_Some in Hk' as [_ ?].
  apply Hrange. eauto.
Qed.

End AllocationFurther.

(** X1. [getRandomInt(max)] is an integer of [0, max): when [Math.random()]
    returns doubles of [0, 1) and [max] is an integer with 0 < max <= 2^53,
    the rounded product [Math.random() * max] stays below [max], so each
    call returns a value that is at least 0 and below [max]; for
    [max = 1000000] these are the identities 0 .. 999,999. *)
Theorem getRandomInt_in_range (Math_random : nat -> Q) (max : Z) :
  InUnitInterval Math_random ->
  0 < max <= 9007199254740992 ->
  forall n, 0 <= getRandomInt Math_random max n < max.
Proof.
  intros Hunit Hmax n. destruct (Hunit n). by apply getRandomInt_range.
Qed.

Section RegistryProperties.

Context {Env : Type}.
Variable Math_random : nat -> Q.
Implicit Types (st : Store Env) (k : Z).

(** X2. The identity a registration returns is the first value drawn, from
    the point [Math.random] had reached, that is free in the registry: all
    the values drawn before it were taken, and [Math.random] has been
    called once for each of them and once for the identity. *)
Theorem registration_takes_first_free_draw fuel
    (hs : SignEventRequestHandler Env) (hp : PayInvoiceRequestHandler Env)
    st k st' :
  (handleSignEventRequests_body Math_random fuel hs st = Some (k, st') ->
   exists n,
     randomCalls st' = S n /\ (randomCalls st <= n)%nat
     /\ k = getRandomInt Math_random 1000000 n
     /\ signEventRequestHandlers st !! k = None
     /\ forall i, (randomCalls st <= i < n)%nat ->
          is_Some (signEventRequestHandlers st
                     !! getRandomInt Math_random 1000000 i))
  /\
  (handlePayInvoiceRequests_body Math_random fuel hp st = Some (k, st') ->
   exists n,
     randomCalls st' = S n /\ (randomCalls st <= n)%nat
     /\ k = getRandomInt Math_random 1000000 n
     /\ payInvoiceRequestHandlers st !! k = None
     /\ forall i, (randomCalls st <= i < n)%nat ->
          is_Some (payInvoiceRequestHandlers st
                     !! getRandomInt Math_random 1000000 i)).
Proof.
  split.
  - unfold handleSignEventRequests_body.
    destruct (freshHandlerId _ _ _ _) as [[k0 calls]|] eqn:Hfresh; [|done].
    intros [= <- <-]. simpl. by apply freshHandlerId_first_free in Hfresh.
  - unfold handlePayInvoiceRequests_body.
    destruct (freshHandlerId _ _ _ _) as [[k0 calls]|] eqn:Hfresh; [|done].
    intros [= <- <-]. simpl. by apply freshHandlerId_first_free in Hfresh.
Qed.

(** X3. A registration into a registry in which all 1,000,000 identities
    are taken never returns: the loop draws again for ever. *)
Theorem full_registry_never_registers
    (hs : SignEventRequestHandler Env) (hp : PayInvoiceRequestHandler Env) st :
  InUnitInterval Math_random ->
  ((forall k, 0 <= k < 1000000 ->
      is_Some (signEventRequestHandlers st !! k)) ->
   forall fuel, handleSignEventRequests Math_random fuel hs st = None)
  /\
  ((forall k, 0 <= k < 1000000 ->
      is_Some (payInvoiceRequestHandlers st !! k)) ->
   forall fuel, handlePayInvoiceRequests Math_random fuel hp st = None).
Proof.
  intros Hunit. split; intros Hfull fuel.
  - unfold handleSignEventRequests, handleSignEventRequests_body.
    by rewrite freshHandlerId_full.
  - unfold handlePayInvoiceRequests, handlePayInvoiceRequests_body.
    by rewrite freshHandlerId_full.
Qed.

(** X4. In every store the module can reach from its load, by registrations
    and by invocations of capabilities in any order, the keys of both
    registries lie in the identity space 0 .. 999,999, so neither registry
    ever holds more than 1,000,000 handlers. *)
Theorem reachable_keys_in_identity_space st :
  InUnitInterval Math_random ->
  Reachable Math_random st ->
  KeysInRange (signEventRequestHandlers st)
  /\ KeysInRange (payInvoiceRequestHandlers st)
  /\ Z.of_nat (size (signEventRequestHandlers st)) <= 1000000
  /\ Z.of_nat (size (payInvoiceRequestHandlers st)) <= 1000000.
Proof.
  intros Hunit Hreach.
  assert (Hinv : KeysInRange (signEventRequestHandlers st)
                 /\ KeysInRange (payInvoiceRequestHandlers st)).
  { unfold Reachable in Hreach.
    apply (rtc_ind_r
             (fun st => KeysInRange (signEventRequestHandlers st)
                        /\ KeysInRange (payInvoiceRequestHandlers st))
             moduleLoaded) with (3 := Hreach).
    - split; intros k [h Hk]; simpl in Hk; by rewrite lookup_empty in Hk.
    - intros st1 st2 _ Hstep [IHs IHp].
      destruct Hstep as [fuel h st1 k st2 Hreg|fuel h st1 k st2 Hreg
                        |k st1|k st1].
      + unfold handleSignEventRequests_body in Hreg.
        destruct (freshHandlerId _ _ _ _) as [[k0 calls]|] eqn:Hfresh;
          [|done].
        injection Hreg as <- <-. simpl. split; [|done].
        apply KeysInRange_insert; [|done].
        by eapply freshHandlerId_in_range.
      + unfold handlePayInvoiceRequests_body in Hreg.
        destruct (freshHandlerId _ _ _ _) as [[k0 calls]|] eqn:Hfresh;
          [|done].
        injection Hreg as <- <-. simpl. split; [done|].
        apply KeysInRange_insert; [|done].
        by eapply freshHandlerId_in_range.
      + simpl. split; [by apply KeysInRange_delete|done].
      + simpl. split; [done|by apply KeysInRange_delete]. }
  destruct Hinv as [Hs Hp]. split; [done|]. split; [done|].
  split; by apply KeysInRange_size.
Qed.

End RegistryProperties.

Section RegistrationEffects.

Context {Env : Type}.
Variable Math_random : nat -> Q.
Implicit Types (st : Store Env) (k : Z).

(** Where a new entry comes to stand among the handlers polled. *)
Lemma polls_after_insert {H : Type} (f : H -> Poll Env)
    (registry : gmap Z H) k (h : H) :
  registry !! k = None ->
  exists before after : list (Z * Poll Env),
    prod_map (fun k : Z => k) f <$> Object_entries registry = before ++ after
    /\ prod_map (fun k : Z => k) f <$> Object_entries (<[k := h]> registry) =
         before ++ (k, f h) :: after
    /\ Forall (fun x => x.1 < k) before
    /\ Forall (fun x => k < x.1) after.
Proof.
  intros Hfree.
  destruct (Object_entries_insert registry k h Hfree) as [Hold Hnew].
  set (below := filter (fun x : Z * H => x.1 < k) (Object_entries registry))
    in *.
  set (above := filter (fun x : Z * H => k < x.1) (Object_entries registry))
    in *.
  exists (prod_map (fun k : Z => k) f <$> below),
         (prod_map (fun k : Z => k) f <$> above).
  split; [by rewrite Hold at 1; rewrite fmap_app|].
  split; [by rewrite Hnew, fmap_app|].
  split; apply Forall_fmap, Forall_forall; intros [k' h'];
    by intros [? _]%list_elem_of_filter.
Qed.

Lemma polls_without {H : Type} (f : H -> Poll Env) k (l : list (Z * H)) :
  filter (fun x : Z * Poll Env => x.1 <> k)
         (prod_map (fun k : Z => k) f <$> l) =
    prod_map (fun k : Z => k) f <$> filter (fun x : Z * H => x.1 <> k) l.
Proof.
  induction l as [|[k' h] l IH]; [done|].
  rewrite fmap_cons, !filter_cons. simpl.
  destruct (decide (k' <> k)); by rewrite IH.
Qed.

(** X5. A registration adds one entry and touches nothing else: every
    handler registered before is still registered under its identity, the
    other registry is unchanged, and in the dispatches that follow the
    handlers registered before are polled in the same relative order, the
    new handler taking its place among them by its identity. *)
Theorem registration_keeps_existing_handlers fuel
    (hs : SignEventRequestHandler Env) (hp : PayInvoiceRequestHandler Env)
    st k st' :
  (handleSignEventRequests_body Math_random fuel hs st = Some (k, st') ->
   signEventRequestHandlers st' !! k = Some hs
   /\ (forall k' h', signEventRequestHandlers st !! k' = Some h' ->
                     signEventRequestHandlers st' !! k' = Some h')
   /\ payInvoiceRequestHandlers st' = payInvoiceRequestHandlers st
   /\ forall event, exists before after,
        signPolls st event = before ++ after
        /\ signPolls st' event = before ++ (k, hs event.1 event.2) :: after
        /\ Forall (fun x => x.1 < k) before
        /\ Forall (fun x => k < x.1) after)
  /\
  (handlePayInvoiceRequests_body Math_random fuel hp st = Some (k, st') ->
   payInvoiceRequestHandlers st' !! k = Some hp
   /\ (forall k' h', payInvoiceRequestHandlers st !! k' = Some h' ->
                     payInvoiceRequestHandlers st' !! k' = Some h')
   /\ signEventRequestHandlers st' = signEventRequestHandlers st
   /\ forall invoice, exists before after,
        payPolls st invoice = before ++ after
        /\ payPolls st' invoice = before ++ (k, hp invoice) :: after
        /\ Forall (fun x => x.1 < k) before
        /\ Forall (fun x => k < x.1) after).
Proof.
  split; intros Hreg.
  - apply handleSignEventRequests_body_spec in Hreg as (Hfree & Hs & Hp).
    split; [rewrite Hs; apply lookup_insert_eq|].
    split.
    { intros k' h' Hk'. rewrite Hs, lookup_insert_ne; [done|congruence]. }
    split; [done|]. intros event. unfold signPolls. rewrite Hs.
    by apply (polls_after_insert (fun h : SignEventRequestHandler Env =>
                                    h event.1 event.2)).
  - apply handlePayInvoiceRequests_body_spec in Hreg as (Hfree & Hp & Hs).
    split; [rewrite Hp; apply lookup_insert_eq|].
    split.
    { intros k' h' Hk'. rewrite Hp, lookup_insert_ne; [done|congruence]. }
    split; [done|]. intros invoice. unfold payPolls. rewrite Hp.
    by apply (polls_after_insert (fun h : PayInvoiceRequestHandler Env =>
                                    h invoice)).
Qed.

(** X6. Registering a handler and then invoking the capability returned
    puts both registries back as they were, so that every request is
    dispatched as if the handler had never been registered. *)
Theorem register_then_unregister_restores fuel
    (hs : SignEventRequestHandler Env) (hp : PayInvoiceRequestHandler Env)
    st st1 (unregister : Store Env -> Store Env) :
  (handleSignEventRequests Math_random fuel hs st = Some (unregister, st1)
   \/ handlePayInvoiceRequests Math_random fuel hp st = Some (unregister, st1)) ->
  signEventRequestHandlers (unregister st1) = signEventRequestHandlers st
  /\ payInvoiceRequestHandlers (unregister st1) = payInvoiceRequestHandlers st
  /\ (forall event env,
        sign_event_request_listener (unregister st1) event env =
          sign_event_request_listener st event env)
  /\ (forall invoice env,
        pay_invoice_request_listener (unregister st1) invoice env =
          pay_invoice_request_listener st invoice env).
Proof.
  intros Hreg.
  assert (Hback :
    signEventRequestHandlers (unregister st1) = signEventRequestHandlers st
    /\ payInvoiceRequestHandlers (unregister st1) =
         payInvoiceRequestHandlers st).
  { destruct Hreg as [Hreg|Hreg].
    - unfold handleSignEventRequests in Hreg.
      destruct (handleSignEventRequests_body _ _ _ _) as [[k st']|] eqn:Hb;
        [|done].
      injection Hreg as <- <-.
      apply handleSignEventRequests_body_spec in Hb as (Hfree & Hs & Hp).
      simpl. rewrite Hs, Hp. by rewrite delete_insert_id.
    - unfold handlePayInvoiceRequests in Hreg.
      destruct (handlePayInvoiceRequests_body _ _ _ _) as [[k st']|] eqn:Hb;
        [|done].
      injection Hreg as <- <-.
      apply handlePayInvoiceRequests_body_spec in Hb as (Hfree & Hp & Hs).
      simpl. rewrite Hs, Hp. by rewrite delete_insert_id. }
  destruct Hback as [Hs Hp]. split; [done|]. split; [done|]. split.
  - intros event env. unfold sign_event_request_listener, signPolls.
    by rewrite Hs.
  - intros invoice env. unfold pay_invoice_request_listener, payPolls.
    by rewrite Hp.
Qed.

(** X7. A dispatch that starts after a capability has been invoked does not
    poll the handler of its identity: on any store, the snapshot taken after
    the invocation is the snapshot that would have been taken before it
    without the entry of that identity, in the same order; that identity is
    not called in such a dispatch; and the requests of the other kind are
    dispatched as before.  A dispatch that is under way when the capability
    is invoked polls the snapshot it took at its start; it is not the
    subject here. *)
Theorem unregistered_handler_is_not_polled fuel
    (hs : SignEventRequestHandler Env) (hp : PayInvoiceRequestHandler Env)
    st st1 (unregister : Store Env -> Store Env) :
  (handleSignEventRequests Math_random fuel hs st = Some (unregister, st1) ->
   exists k,
     signEventRequestHandlers st1 !! k = Some hs
     /\ forall st2 event invoice env,
          signPolls (unregister st2) event =
            filter (fun x => x.1 <> k) (signPolls st2 event)
          /\ timesCalled k
               (effects (sign_event_request_listener (unregister st2)
                           event env)) = 0%nat
          /\ pay_invoice_request_listener (unregister st2) invoice env =
               pay_invoice_request_listener st2 invoice env)
  /\
  (handlePayInvoiceRequests Math_random fuel hp st = Some (unregister, st1) ->
   exists k,
     payInvoiceRequestHandlers st1 !! k = Some hp
     /\ forall st2 event invoice env,
          payPolls (unregister st2) invoice =
            filter (fun x => x.1 <> k) (payPolls st2 invoice)
          /\ timesCalled k
               (effects (pay_invoice_request_listener (unregister st2)
                           invoice env)) = 0%nat
          /\ sign_event_request_listener (unregister st2) event env =
               sign_event_request_listener st2 event env).
Proof.
  split.
  - unfold handleSignEventRequests.
    destruct (handleSignEventRequests_body _ _ _ _) as [[k st']|] eqn:Hb;
      [|done].
    intros [= <- <-]. exists k.
    apply handleSignEventRequests_body_spec in Hb as (_ & Hs & _).
    split; [rewrite Hs; apply lookup_insert_eq|].
    intros st2 event invoice env.
    assert (Hpolls : signPolls (unregisterSignEvent k st2) event =
                       filter (fun x => x.1 <> k) (signPolls st2 event)).
    { unfold signPolls. simpl. rewrite Object_entries_delete.
      symmetry. apply polls_without. }
    split; [exact Hpolls|]. split; [|done].
    unfold timesCalled, sign_event_request_listener.
    rewrite afterLoop_calledIds by done.
    apply count_occ_not_In. intros Hin%list_elem_of_In.
    destruct (pollHandlers_prefix (signPolls (unregisterSignEvent k st2) event)
                false env) as [rest Hrest].
    assert (Hk : k ∈ (signPolls (unregisterSignEvent k st2) event).*1).
    { rewrite Hrest. apply elem_of_app. by left. }
    rewrite Hpolls in Hk. apply list_elem_of_fmap in Hk as ([k' p] & -> & Hk).
    by apply list_elem_of_filter in Hk as [Hne _].
  - unfold handlePayInvoiceRequests.
    destruct (handlePayInvoiceRequests_body _ _ _ _) as [[k st']|] eqn:Hb;
      [|done].
    intros [= <- <-]. exists k.
    apply handlePayInvoiceRequests_body_spec in Hb as (_ & Hp & _).
    split; [rewrite Hp; apply lookup_insert_eq|].
    intros st2 event invoice env.
    assert (Hpolls : payPolls (unregisterPayInvoice k st2) invoice =
                       filter (fun x => x.1 <> k) (payPolls st2 invoice)).
    { unfold payPolls. simpl. rewrite Object_entries_delete.
      symmetry. apply polls_without. }
    split; [exact Hpolls|]. split; [|done].
    unfold timesCalled, pay_invoice_request_listener.
    rewrite afterLoop_calledIds by done.
    apply count_occ_not_In. intros Hin%list_elem_of_In.
    destruct (pollHandlers_prefix (payPolls (unregisterPayInvoice k st2) invoice)
                false env) as [rest Hrest].
    assert (Hk : k ∈ (payPolls (unregisterPayInvoice k st2) invoice).*1).
    { rewrite Hrest. apply elem_of_app. by left. }
    rewrite Hpolls in Hk. apply list_elem_of_fmap in Hk as ([k' p] & -> & Hk).
    by apply list_elem_of_filter in Hk as [Hne _].
Qed.

(** X8. A capability is bound to an identity, not to a registration.  When
    the identity of a handler that was unregistered is drawn again for a
    later registration, invoking the old capability once more removes the
    later handler. *)
Theorem stale_capability_removes_new_handler fuel1 fuel2
    (h1 h2 : SignEventRequestHandler Env) st st1 st3 k
    (unregister1 : Store Env -> Store Env) :
  handleSignEventRequests Math_random fuel1 h1 st = Some (unregister1, st1) ->
  signEventRequestHandlers st !! k = None ->
  signEventRequestHandlers st1 !! k = Some h1 ->
  handleSignEventRequests_body Math_random fuel2 h2 (unregister1 st1) =
    Some (k, st3) ->
  signEventRequestHandlers st3 !! k = Some h2
  /\ signEventRequestHandlers (unregister1 st3) !! k = None
  /\ signEventRequestHandlers (unregister1 st3) = signEventRequestHandlers st.
Proof.
  unfold handleSignEventRequests.
  destruct (handleSignEventRequests_body _ fuel1 _ _) as [[k1 st']|] eqn:Hb;
    [|done].
  intros [= <- <-] Hnone Hsome Hreg.
  apply handleSignEventRequests_body_spec in Hb as (Hfree & Hs & _).
  assert (k = k1) as ->.
  { destruct (decide (k = k1)) as [|Hne]; [done|].
    rewrite Hs, lookup_insert_ne in Hsome by done. congruence. }
  apply handleSignEventRequests_body_spec in Hreg as (_ & Hs3 & _).
  simpl in *. rewrite Hs3, Hs.
  split; [apply lookup_insert_eq|]. split; [apply lookup_delete_eq|].
  rewrite delete_insert_eq, delete_insert_id by done. by apply delete_id.
Qed.

End RegistrationEffects.

(* ===================================================================== *)
(** * Further properties of the login page *)
(* ===================================================================== *)

Section LoginPageProperties.

Import LoginPage.

Variable nip19_decode : string -> Try DecodeResult.
Variable set_nsec_resolves : string -> bool.

Lemma handleSubmit_cases (values : FormValues) :
  handleSubmit nip19_decode set_nsec_resolves values =
    match isValidNsec nip19_decode (nsec values) with
    | Returned true => onSubmit set_nsec_resolves values
    | _ => ([FormMessage "Invalid nsec."], Resolved)
    end.
Proof.
  unfold handleSubmit, formSchema. rewrite isValidNsec_cases.
  by destruct (nip19_decode (nsec values)) as [r|];
    [destruct (bool_decide (type r = "nsec"))|].
Qed.

(** X13. A submission of the form navigates, and then to "/" only, exactly
    when [nip19.decode] reads the string as an nsec and the backend accepts
    it; it ends in a rejection exactly when the string is an nsec and the
    backend refuses it; and a string that is no nsec has one effect, the
    message "Invalid nsec.". *)
Theorem submission_navigates_iff_accepted (values : FormValues) :
  let run := handleSubmit nip19_decode set_nsec_resolves values in
  (forall to, In (navigate to) run.1 <->
     to = "/"
     /\ isValidNsec nip19_decode (nsec values) = Returned true
     /\ set_nsec_resolves (nsec values) = true)
  /\ (run.2 = RejectedPromise <->
      isValidNsec nip19_decode (nsec values) = Returned true
      /\ set_nsec_resolves (nsec values) = false)
  /\ (isValidNsec nip19_decode (nsec values) <> Returned true ->
      run = ([FormMessage "Invalid nsec."], Resolved)).
Proof.
  intros run. unfold run. rewrite handleSubmit_cases.
  destruct (isValidNsec nip19_decode (nsec values)) as [[]|] eqn:Hv;
    unfold onSubmit; [destruct (set_nsec_resolves (nsec values))|..]; simpl.
  - split; [|split]; [|split; [done|by intros [_ ?]]|done].
    intros to. split.
    + intros [[=]|[[=]|[[= <-]|[[=]|[]]]]]. done.
    + intros (-> & _ & _). right. right. by left.
  - split; [|split]; [|done|done].
    intros to. split; [|by intros (_ & _ & ?)].
    intros [[=]|[[=]|[[=]|[]]]].
  - split; [|split]; [|split; [done|by intros [? _]]|done].
    intros to. split; [|by intros (_ & ? & _)]. intros [[=]|[]].
  - split; [|split]; [|split; [done|by intros [? _]]|done].
    intros to. split; [|by intros (_ & ? & _)]. intros [[=]|[]].
Qed.

(** X14. The form is not left disabled and the backend is only called
    while it is disabled: after any submission that began with [isLoading]
    false, [isLoading] is false again, whether the backend accepted,
    refused or was not called; [setNsec] is called at most once, with the
    string submitted, and at the moment of the call [isLoading] is true. *)
Theorem loading_flag_is_restored (values : FormValues) :
  let run := handleSubmit nip19_decode set_nsec_resolves values in
  isLoadingAfter false run.1 = false
  /\ (forall pre s post,
        run.1 = pre ++ setNsec s :: post ->
        s = nsec values
        /\ isLoadingAfter false pre = true
        /\ (forall s', ~ In (setNsec s') pre)
        /\ (forall s', ~ In (setNsec s') post)).
Proof.
  intros run. unfold run. rewrite handleSubmit_cases.
  assert (Hinvalid : forall pre s post,
            [FormMessage "Invalid nsec."] = pre ++ setNsec s :: post -> False).
  { intros [|e [|e' pre]] s post; simpl; intros [=]. }
  destruct (isValidNsec nip19_decode (nsec values)) as [[]|] eqn:Hv;
    [|split; [done|]; intros pre s post H; by destruct (Hinvalid _ _ _ H)..].
  unfold onSubmit. destruct (set_nsec_resolves (nsec values)); simpl.
  - split; [done|]. intros pre s post Heq.
    destruct pre as [|e0 [|e1 [|e2 [|e3 [|e4 pre]]]]]; simpl in Heq;
      simplify_eq; try by destruct pre.
    repeat split; try done.
    + intros s' [[=]|[]].
    + intros s' [[=]|[[=]|[]]].
  - split; [done|]. intros pre s post Heq.
    destruct pre as [|e0 [|e1 [|e2 [|e3 pre]]]]; simpl in Heq;
      simplify_eq; try by destruct pre.
    repeat split; try done.
    + intros s' [[=]|[]].
    + intros s' [[=]|[]].
Qed.

End LoginPageProperties.

(* ===================================================================== *)
(** * The further properties at concrete stores *)
(* ===================================================================== *)

Lemma cycling_in_unit_interval : InUnitInterval Sample.cycling.
Proof. intros n. destruct (cycling_spec n) as (H0 & H1 & _). by split. Qed.

Lemma stuck_in_unit_interval : InUnitInterval Sample.stuck.
Proof. intros n. by split. Qed.

Lemma Scenario_full_is_full (k : Z) :
  0 <= k < 1000000 ->
  is_Some (signEventRequestHandlers Scenario.full !! k).
Proof.
  intros Hk. exists Sample.declines.
  unfold Scenario.full, Sample.mkStore. cbn [signEventRequestHandlers].
  apply lookup_gset_to_gmap_Some. split; [|done].
  apply elem_of_list_to_set, elem_of_seqZ. lia.
Qed.

Lemma getRandomInt_in_range_witness :
  InUnitInterval Scenario.nearOne
  /\ 0 < 1000000 <= 9007199254740992
  /\ 0 <= getRandomInt Scenario.nearOne 1000000 0 < 1000000
  /\ getRandomInt Scenario.nearOne 1000000 0 = 999999
  /\ getRandomInt Scenario.nearOne 1000000 1 = 2803.
Proof.
  assert (Hunit : InUnitInterval Scenario.nearOne).
  { intros [|[|n]]; by split. }
  assert (Hmax : 0 < 1000000 <= 9007199254740992) by lia.
  split; [exact Hunit|]. split; [exact Hmax|].
  split; [exact (getRandomInt_in_range Scenario.nearOne 1000000
                   Hunit Hmax 0%nat)|].
  split; vm_compute; reflexivity.
Defined.

Lemma registration_takes_first_free_draw_witness :
  exists st',
    handleSignEventRequests_body Sample.cycling 5 Sample.approves
      Sample.oneTaken = Some (1, st')
    /\ exists n,
         randomCalls st' = S n /\ (randomCalls Sample.oneTaken <= n)%nat
         /\ 1 = getRandomInt Sample.cycling 1000000 n
         /\ signEventRequestHandlers Sample.oneTaken !! 1 = None
         /\ forall i, (randomCalls Sample.oneTaken <= i < n)%nat ->
              is_Some (signEventRequestHandlers Sample.oneTaken
                         !! getRandomInt Sample.cycling 1000000 i).
Proof.
  let v := eval vm_compute in
             (handleSignEventRequests_body Sample.cycling 5 Sample.approves
                Sample.oneTaken) in
  lazymatch v with Some (_, ?s) => exists s end.
  evaluated Hreg.
  exact (proj1 (registration_takes_first_free_draw Sample.cycling 5
                  Sample.approves Sample.pays Sample.oneTaken 1 _) Hreg).
Defined.

Lemma full_registry_never_registers_witness :
  InUnitInterval Sample.cycling
  /\ (forall k, 0 <= k < 1000000 ->
        is_Some (signEventRequestHandlers Scenario.full !! k))
  /\ forall fuel,
       handleSignEventRequests Sample.cycling fuel Sample.approves
         Scenario.full = None.
Proof.
  split; [exact cycling_in_unit_interval|].
  split; [exact Scenario_full_is_full|].
  exact (proj1 (full_registry_never_registers Sample.cycling Sample.approves
                  Sample.pays Scenario.full cycling_in_unit_interval)
           Scenario_full_is_full).
Defined.

Lemma reachable_keys_in_identity_space_witness :
  InUnitInterval Sample.cycling
  /\ exists st : Store unit,
       Reachable Sample.cycling st
       /\ signEventRequestHandlers st !! 0 = Some Sample.declines
       /\ payInvoiceRequestHandlers st !! 1 = Some Sample.pays
       /\ KeysInRange (signEventRequestHandlers st)
       /\ KeysInRange (payInvoiceRequestHandlers st)
       /\ Z.of_nat (size (signEventRequestHandlers st)) <= 1000000
       /\ Z.of_nat (size (payInvoiceRequestHandlers st)) <= 1000000.
Proof.
  split; [exact cycling_in_unit_interval|].
  assert (Hreach : exists st : Store unit,
            Reachable Sample.cycling st
            /\ signEventRequestHandlers st !! 0 = Some Sample.declines
            /\ payInvoiceRequestHandlers st !! 1 = Some Sample.pays).
  { let v1 := eval vm_compute in
                (handleSignEventRequests_body Sample.cycling 5 Sample.declines
                   (@moduleLoaded unit)) in
    lazymatch v1 with
    | Some (?k1, ?s1) =>
        let v2 := eval vm_compute in
                    (handlePayInvoiceRequests_body Sample.cycling 5 Sample.pays
                       (unregisterPayInvoice 7 s1)) in
        lazymatch v2 with
        | Some (?k2, ?s2) =>
            assert (E1 : handleSignEventRequests_body Sample.cycling 5
                           Sample.declines (@moduleLoaded unit) = Some (k1, s1))
              by (vm_compute; reflexivity);
            assert (E2 : handlePayInvoiceRequests_body Sample.cycling 5
                           Sample.pays (unregisterPayInvoice 7 s1) =
                         Some (k2, s2))
              by (vm_compute; reflexivity);
            exists s2
        end
    end.
    split.
    - unfold Reachable.
      eapply rtc_l; [exact (Step_handleSignEventRequests _ _ _ _ _ _ E1)|].
      eapply rtc_l; [apply (Step_unregisterPayInvoice Sample.cycling 7)|].
      eapply rtc_l; [exact (Step_handlePayInvoiceRequests _ _ _ _ _ _ E2)|].
      apply rtc_refl.
    - split; vm_compute; reflexivity. }
  destruct Hreach as (st & Hreach & Hs & Hp).
  exists st. split; [exact Hreach|]. split; [exact Hs|]. split; [exact Hp|].
  exact (reachable_keys_in_identity_space Sample.cycling st
           cycling_in_unit_interval Hreach).
Defined.

Lemma registration_keeps_existing_handlers_witness :
  exists st',
    handleSignEventRequests_body Sample.cycling 5 Sample.approves
      Sample.declinesThenApproves = Some (0, st')
    /\ signEventRequestHandlers st' !! 0 = Some Sample.approves
    /\ signEventRequestHandlers st' !! 9 = Some Sample.approves
    /\ payInvoiceRequestHandlers st' =
         payInvoiceRequestHandlers Sample.declinesThenApproves
    /\ exists before after,
         signPolls Sample.declinesThenApproves (Sample.event, "pk"%string) =
           before ++ after
         /\ signPolls st' (Sample.event, "pk"%string) =
              before ++ (0, Sample.approves Sample.event "pk") :: after.
Proof.
  let v := eval vm_compute in
             (handleSignEventRequests_body Sample.cycling 5 Sample.approves
                Sample.declinesThenApproves) in
  lazymatch v with Some (_, ?s) => exists s end.
  evaluated Hreg.
  destruct (proj1 (registration_keeps_existing_handlers Sample.cycling 5
                     Sample.approves Sample.pays
                     Sample.declinesThenApproves 0 _) Hreg)
    as (Hnew & Hold & Hpay & Hpolls).
  assert (H9 : signEventRequestHandlers Sample.declinesThenApproves !! 9 =
               Some Sample.approves) by (vm_compute; reflexivity).
  split; [exact Hnew|]. split; [exact (Hold 9 Sample.approves H9)|].
  split; [exact Hpay|].
  destruct (Hpolls (Sample.event, "pk"%string))
    as (before & after & H1 & H2 & _).
  exists before, after. split; [exact H1|exact H2].
Defined.

Lemma register_then_unregister_restores_witness :
  exists unregister st1,
    handleSignEventRequests Sample.cycling 5 Sample.approves Sample.allDecline =
      Some (unregister, st1)
    /\ signEventRequestHandlers (unregister st1) =
         signEventRequestHandlers Sample.allDecline
    /\ payInvoiceRequestHandlers (unregister st1) =
         payInvoiceRequestHandlers Sample.allDecline
    /\ sign_event_request_listener (unregister st1)
         (Sample.event, "pk"%string) tt =
       sign_event_request_listener Sample.allDecline
         (Sample.event, "pk"%string) tt.
Proof.
  let v := eval vm_compute in
             (handleSignEventRequests_body Sample.cycling 5 Sample.approves
                Sample.allDecline) in
  lazymatch v with
  | Some (?k, ?s) => exists (unregisterSignEvent k), s
  end.
  evaluated Hreg.
  destruct (register_then_unregister_restores Sample.cycling 5
              Sample.approves Sample.pays Sample.allDecline _ _
              (or_introl Hreg))
    as (Hs & Hp & Hrun & _).
  split; [exact Hs|]. split; [exact Hp|]. apply Hrun.
Defined.

Lemma unregistered_handler_is_not_polled_witness :
  exists unregister st1,
    handleSignEventRequests Sample.cycling 5 Sample.approves Sample.allDecline =
      Some (unregister, st1)
    /\ exists k,
         signEventRequestHandlers st1 !! k = Some Sample.approves
         /\ signPolls (unregister st1) (Sample.event, "pk"%string) =
              filter (fun x => x.1 <> k)
                     (signPolls st1 (Sample.event, "pk"%string))
         /\ timesCalled k
              (effects (sign_event_request_listener (unregister st1)
                          (Sample.event, "pk"%string) tt)) = 0%nat.
Proof.
  let v := eval vm_compute in
             (handleSignEventRequests_body Sample.cycling 5 Sample.approves
                Sample.allDecline) in
  lazymatch v with
  | Some (?k, ?s) => exists (unregisterSignEvent k), s
  end.
  evaluated Hreg.
  destruct (proj1 (unregistered_handler_is_not_polled Sample.cycling 5
                     Sample.approves Sample.pays Sample.allDecline _ _)
              Hreg) as (k & Hk & Hgone).
  exists k. split; [exact Hk|].
  split.
  - exact (proj1 (Hgone _ (Sample.event, "pk"%string) ""%string tt)).
  - exact (proj1 (proj2 (Hgone _ (Sample.event, "pk"%string) ""%string tt))).
Defined.

Lemma stale_capability_removes_new_handler_witness :
  exists unregister1 st1 st3,
    handleSignEventRequests Sample.stuck 0 Sample.declines Sample.nobody =
      Some (unregister1, st1)
    /\ signEventRequestHandlers Sample.nobody !! 0 = None
    /\ signEventRequestHandlers st1 !! 0 = Some Sample.declines
    /\ handleSignEventRequests_body Sample.stuck 0 Sample.approves
         (unregister1 st1) = Some (0, st3)
    /\ signEventRequestHandlers st3 !! 0 = Some Sample.approves
    /\ signEventRequestHandlers (unregister1 st3) !! 0 = None
    /\ signEventRequestHandlers (unregister1 st3) =
         signEventRequestHandlers Sample.nobody.
Proof.
  eexists _, _, _.
  split; [reflexivity|]. split; [reflexivity|]. split; [reflexivity|].
  split; [reflexivity|].
  exact (stale_capability_removes_new_handler Sample.stuck 0 0
           Sample.declines Sample.approves Sample.nobody _ _ 0 _
           eq_refl eq_refl eq_refl eq_refl).
Defined.

Lemma pending_stalls_dispatch_witness :
  let st := Scenario.hangsThenApproves in
  let event := (Sample.event, "pk"%string) in
  let post := [(2, Sample.approves Sample.event "pk")] in
  let run := sign_event_request_listener st event tt in
  AllDecline [] tt tt
  /\ Scenario.hangs Sample.event "pk" tt = (Pending, tt)
  /\ signPolls st event = [] ++ (1, Scenario.hangs Sample.event "pk") :: post
  /\ effects run = [Called 1]
  /\ responses (effects run) = []
  /\ completion run = NeverSettles
  /\ forall k', k' ∈ post.*1 -> timesCalled k' (effects run) = 0%nat.
Proof.
  intros st event post run.
  assert (H1 : signPolls st event =
               [] ++ (1, Scenario.hangs Sample.event "pk") :: post)
    by (vm_compute; reflexivity).
  split; [apply AllDecline_nil|]. split; [reflexivity|].
  split; [exact H1|].
  exact (proj1 (pending_stalls_dispatch st event "lnbc1" tt [] post 1
                  (Scenario.hangs Sample.event "pk") tt tt
                  (AllDecline_nil tt) eq_refl) H1).
Defined.

Lemma verdict_characterised_witness :
  let event := (Sample.event, "pk"%string) in
  responses (effects (sign_event_request_listener Sample.hesitant event 0%nat))
    = [respond_to_sign_event_request "e1" true]
  /\ responses (effects (sign_event_request_listener Sample.allDecline event tt))
       = [respond_to_sign_event_request "e1" false]
  /\ exists env', AllDecline (payPolls Sample.allDecline "lnbc1") tt env'.
Proof.
  intros event.
  destruct (verdict_characterised Sample.hesitant event "lnbc1" 0%nat)
    as ([_ Htrue] & _).
  destruct (verdict_characterised Sample.allDecline event "lnbc1" tt)
    as (_ & [_ Hfalse] & _ & [Hpay _]).
  split; [|split].
  - apply Htrue.
    exists [(3, Sample.secondThoughts Sample.event "pk")], 8,
           (Sample.secondThoughts Sample.event "pk"),
           [(11, Sample.secondThoughts Sample.event "pk")], 1%nat, 2%nat.
    split; [vm_compute; reflexivity|]. split; [|reflexivity].
    eapply AllDecline_cons; [reflexivity|]. apply AllDecline_nil.
  - apply Hfalse. exists tt. vm_compute.
    repeat (eapply AllDecline_cons; [reflexivity|]). apply AllDecline_nil.
  - apply Hpay. vm_compute. reflexivity.
Defined.

Lemma submission_navigates_iff_accepted_witness :
  In (LoginPage.navigate "/")
     (LoginPage.handleSubmit Sample.validOnly (fun _ => true)
        {| LoginPage.nsec := "nsec1ok" |}).1
  /\ (LoginPage.handleSubmit Sample.validOnly (fun _ => false)
        {| LoginPage.nsec := "nsec1ok" |}).2 = RejectedPromise
  /\ LoginPage.handleSubmit Sample.validOnly (fun _ => true)
       {| LoginPage.nsec := "npub1ok" |} =
     ([LoginPage.FormMessage "Invalid nsec."], Resolved).
Proof.
  destruct (submission_navigates_iff_accepted Sample.validOnly (fun _ => true)
              {| LoginPage.nsec := "nsec1ok" |}) as (Hnav & _ & _).
  destruct (submission_navigates_iff_accepted Sample.validOnly (fun _ => false)
              {| LoginPage.nsec := "nsec1ok" |}) as (_ & Hrej & _).
  destruct (submission_navigates_iff_accepted Sample.validOnly (fun _ => true)
              {| LoginPage.nsec := "npub1ok" |}) as (_ & _ & Hinv).
  split; [|split].
  - apply Hnav. repeat split.
  - apply Hrej. repeat split.
  - apply Hinv. vm_compute. discriminate.
Defined.

Lemma loading_flag_is_restored_witness :
  let run := LoginPage.handleSubmit Sample.validOnly (fun _ => false)
               {| LoginPage.nsec := "nsec1ok" |} in
  run.1 = [LoginPage.setIsLoading true] ++ LoginPage.setNsec "nsec1ok"
            :: [LoginPage.setIsLoading false]
  /\ isLoadingAfter false run.1 = false
  /\ isLoadingAfter false [LoginPage.setIsLoading true] = true.
Proof.
  intros run.
  destruct (loading_flag_is_restored Sample.validOnly (fun _ => false)
              {| LoginPage.nsec := "nsec1ok" |}) as (Hend & Hcall).
  assert (Heq : run.1 = [LoginPage.setIsLoading true]
                          ++ LoginPage.setNsec "nsec1ok"
                          :: [LoginPage.setIsLoading false]) by reflexivity.
  split; [exact Heq|]. split; [exact Hend|].
  exact (proj1 (proj2 (Hcall _ _ _ Heq))).
Defined.

(* ===================================================================== *)
(** * Responses and the pay-invoice reduction *)
(* ===================================================================== *)

Section Responses.

Context {Env : Type}.
Implicit Types (snapshot pre post : list (Z * Poll Env)) (env : Env).
Implicit Types (st : Store Env).





End Responses.








